(** * Forecast Assistant: aggregation, ranking and cart link

    A shallow embedding of the three revisions of [server.js] found in the
    repository:

    - [ServerJs]   : src/server.js            (one window, clamp at 50, top N)
    - [Seasonal]   : src/unnamed/part_000     (one window + monthly breakdown)
    - [TwoWindow]  : src/unnamed/part_001     (recent + seasonal windows, top N)

    JavaScript numbers are modelled exactly: quantities are integers ([Z]),
    the monthly average is a rational ([Q]).  This agrees with IEEE doubles
    for the integer quantities an order can carry (far below 2^53), for a
    window length different from 0, and for identifiers below 10^21, which
    [String] prints in plain decimal. *)

From Stdlib Require Import ZArith QArith Qround List String Ascii Bool Lia Lqa.
From Stdlib Require Import Permutation Sorted.
From Stdlib Require Import DecimalString DecimalPos DecimalN DecimalZ.
Import ListNotations.

Local Open Scope string_scope.
Local Open Scope list_scope.
Local Open Scope Z_scope.

(** ** The fragment of the JavaScript runtime the program uses *)

Module Js.

(** [String(n)] and [`${n}`] for an integer number. *)
Definition ToString (n : Z) : string := NilZero.string_of_int (Z.to_int n).

(** The values a line item's [variant_id] / [product_id] take in the
    order source's JSON: absent, [null], or a number. *)
Inductive Id : Type :=
| Undefined
| Null
| Num (n : Z).

(** ToBoolean. *)
Definition truthy (v : Id) : bool :=
  match v with
  | Num n => negb (n =? 0)
  | _ => false
  end.

(** [a || b]. *)
Definition or (a b : Id) : Id := if truthy a then a else b.

(** [String(v)]. *)
Definition String_ (v : Id) : string :=
  match v with
  | Undefined => "undefined"
  | Null => "null"
  | Num n => ToString n
  end.

(** [s || t] on optional strings ([None] is an absent property); the empty
    string is falsy. *)
Definition truthy_str (s : option string) : bool :=
  match s with
  | Some s => negb (s =? EmptyString)%string
  | None => false
  end.

Definition or_empty (b : option string) : string :=
  match b with
  | Some t => t
  | None => EmptyString
  end.

(** [li.name || li.title || ''] *)
Definition or_str (a b : option string) : string :=
  if truthy_str a then or_empty a else or_empty b.

(** [q || 0] on an optional number. *)
Definition or_zero (q : option Z) : Z :=
  match q with
  | Some q => q
  | None => 0
  end.

(** *** Plain objects used as maps

    An object created by [{}] and only written through [map[k] = v] is its
    list of own properties in insertion order.  Keys are never names of
    [Object.prototype] here (they are [String] of an [Id]). *)
Definition Object (V : Type) : Type := list (string * V).

Section Objects.
Context {V : Type}.

(** [o[k]] *)
Fixpoint get (o : Object V) (k : string) : option V :=
  match o with
  | [] => None
  | (k', v) :: o' => if (k' =? k)%string then Some v else get o' k
  end.

(** [o[k] = v]: an existing property keeps its place, a new one is
    appended. *)
Fixpoint set (o : Object V) (k : string) (v : V) : Object V :=
  match o with
  | [] => [(k, v)]
  | (k', v') :: o' =>
      if (k' =? k)%string then (k, v) :: o' else (k', v') :: set o' k v
  end.

(** A property key is an array index when it is the canonical decimal
    numeral of an integer in [0, 2^32 - 2]. *)
Definition array_index (k : string) : option N :=
  match NilZero.uint_of_string k with
  | Some d =>
      let n := N.of_uint d in
      if (NilZero.string_of_uint (N.to_uint n) =? k)%string
         && (n <? 4294967295)%N
      then Some n else None
  | None => None
  end.

Definition is_index (e : string * V) : bool :=
  match array_index (fst e) with Some _ => true | None => false end.

Definition index_of (e : string * V) : N :=
  match array_index (fst e) with Some n => n | None => 0%N end.

Fixpoint insert_by_index (e : string * V) (l : list (string * V)) :=
  match l with
  | [] => [e]
  | e' :: l' =>
      if (index_of e <=? index_of e')%N then e :: l
      else e' :: insert_by_index e l'
  end.

Definition sort_by_index (l : list (string * V)) : list (string * V) :=
  fold_right insert_by_index [] l.

(** [Object.entries(o)]: array-index keys in ascending numeric order,
    then the other keys in insertion order (OrdinaryOwnPropertyKeys). *)
Definition entries (o : Object V) : list (string * V) :=
  sort_by_index (filter is_index o)
    ++ filter (fun e => negb (is_index e)) o.

Definition keys (o : Object V) : list string := map fst o.
End Objects.

(** *** Arrays *)
Section Arrays.
Context {A : Type}.

(** [Array.prototype.sort(cmp)] is stable: an element goes in front of
    the first one it does not have to follow. *)
Fixpoint sort_insert (cmp : A -> A -> Z) (x : A) (l : list A) : list A :=
  match l with
  | [] => [x]
  | y :: l' =>
      if cmp x y <=? 0 then x :: l else y :: sort_insert cmp x l'
  end.

Definition sort (cmp : A -> A -> Z) (l : list A) : list A :=
  fold_right (sort_insert cmp) [] l.

(** [arr.slice(0, end)]: a negative [end] counts from the end. *)
Definition slice0 (l : list A) (end_ : Z) : list A :=
  let len := Z.of_nat (List.length l) in
  let k := if end_ <? 0 then Z.max (len + end_) 0 else Z.min end_ len in
  firstn (Z.to_nat k) l.
End Arrays.

(** [parts.join(sep)] *)
Fixpoint join (sep : string) (parts : list string) : string :=
  match parts with
  | [] => EmptyString
  | [p] => p
  | p :: ps => (p ++ sep ++ join sep ps)%string
  end.

(** [Math.round]: the nearest integer, a tie going up. *)
Definition Math_round (x : Q) : Z := Qfloor (x + (1 # 2))%Q.

(** [a / b] on integer-valued numbers, [b] not 0. *)
Definition div (a b : Z) : Q := (inject_Z a / inject_Z b)%Q.

End Js.

(** ** Orders as the order source returns them *)

Module Shopify.

Record LineItem : Type := {
  variant_id : Js.Id;
  product_id : Js.Id;
  name : option string;
  title : option string;
  quantity : option Z
}.

(** [line_items] is [None] when the property is absent. *)
Record Order : Type := {
  created_at : string;
  line_items : option (list LineItem)
}.

(** [li.variant_id || li.product_id] *)
Definition vid (li : LineItem) : Js.Id :=
  Js.or (variant_id li) (product_id li).

(** [li.name || li.title || ''] *)
Definition display (li : LineItem) : string :=
  Js.or_str (name li) (title li).

(** [li.quantity || 0] *)
Definition units (li : LineItem) : Z := Js.or_zero (quantity li).

(** [o.line_items || []] *)
Definition items (o : Order) : list LineItem :=
  match line_items o with
  | Some lis => lis
  | None => []
  end.

End Shopify.

(** ** src/server.js *)

Module ServerJs.

(** An entry of [map]: [{ qty, title }]. *)
Module Agg.
Record t : Type := { qty : Z; title : string }.
End Agg.

(** A forecast item: [{ variant_id, qty, title, totalQty }]. *)
Module Item.
Record t : Type := {
  variant_id : string;
  qty : Z;
  title : string;
  totalQty : Z
}.
End Item.

(** The body of the inner loop of [aggregateLineItems]. *)
Definition add_line_item (map : Js.Object Agg.t) (li : Shopify.LineItem)
  : Js.Object Agg.t :=
  let vid := Shopify.vid li in
  if negb (Js.truthy vid) then map
  else
    let id := Js.String_ vid in
    let map :=
      match Js.get map id with
      | None =>
          Js.set map id {| Agg.qty := 0; Agg.title := Shopify.display li |}
      | Some _ => map
      end in
    match Js.get map id with
    | Some e =>
        Js.set map id {| Agg.qty := Agg.qty e + Shopify.units li;
                         Agg.title := Agg.title e |}
    | None => map
    end.

Definition add_order (map : Js.Object Agg.t) (o : Shopify.Order)
  : Js.Object Agg.t :=
  match Shopify.line_items o with
  | None => map
  | Some lis => fold_left add_line_item lis map
  end.

Definition aggregateLineItems (orders : list Shopify.Order)
  : Js.Object Agg.t :=
  fold_left add_order orders [].

(** The callback of [Object.entries(map).map(...)]. *)
Definition forecast_entry (months : Z) (e : string * Agg.t) : Item.t :=
  let '(variant_id, v) := e in
  let avgPerMonth := Js.div (Agg.qty v) months in
  let qty := Js.Math_round avgPerMonth in
  let qty := if (0 <? Agg.qty v) && (qty <? 1) then 1 else qty in
  let qty := Z.min qty 50 in
  {| Item.variant_id := variant_id; Item.qty := qty;
     Item.title := Agg.title v; Item.totalQty := Agg.qty v |}.

Definition by_totalQty_desc (a b : Item.t) : Z :=
  Item.totalQty b - Item.totalQty a.

Definition buildForecastFromAggregates
  (map : Js.Object Agg.t) (months topN : Z) : list Item.t :=
  let arr := List.map (forecast_entry months) (Js.entries map) in
  Js.slice0 (Js.sort by_totalQty_desc arr) topN.

Definition cart_token (i : Item.t) : string :=
  (Item.variant_id i ++ ":" ++ Js.ToString (Item.qty i))%string.

Definition buildCartUrl (items : list Item.t) : string :=
  let parts := List.map cart_token items in
  if (List.length parts =? 0)%nat then "/cart"
  else ("/cart/" ++ Js.join "," parts)%string.

(** *** The order source and the [/forecast] route

    The one [fetch] a request performs is given by its outcome: the promise
    rejects (no response at all), or it resolves to a response. *)

(** What [res.json()] yields: [orders] is [None] when the property is
    absent. *)
Record Data : Type := { orders : option (list Shopify.Order) }.

(** [json] is the outcome of [res.json()]: the parsed body, or the message
    of the error it rejects with when the body is not JSON. *)
Record Response : Type := {
  ok : bool;
  status : Z;
  text : string;
  json : string + Data
}.

Inductive FetchOutcome : Type :=
| Rejected (message : string)
| Responded (res : Response).

(** A thrown [Error]: [err.status] is [None] unless it was assigned. *)
Module Err.
Record t : Type := { message : string; status : option Z }.
End Err.

Definition shopifyFetch (outcome : FetchOutcome) : Err.t + Data :=
  match outcome with
  | Rejected msg => inl {| Err.message := msg; Err.status := None |}
  | Responded res =>
      if negb (ok res) then
        let txt := text res in
        inl {| Err.message :=
                 ("Shopify API error: " ++ Js.ToString (status res)
                    ++ " " ++ txt)%string;
               Err.status := Some (status res) |}
      else
        match json res with
        | inr data => inr data
        | inl msg => inl {| Err.message := msg; Err.status := None |}
        end
  end.

(** [data.orders || []] *)
Definition fetchCustomerOrders (outcome : FetchOutcome)
  : Err.t + list Shopify.Order :=
  match shopifyFetch outcome with
  | inl err => inl err
  | inr data =>
      inr (match orders data with Some l => l | None => [] end)
  end.

(** The identity fields of a request whose body was parsed into an object
    ([express.json()] leaving [req.body] an object), each absent or a
    string.  A request without a parsed body is not a value of this type. *)
Record Request : Type := {
  body_customer_id : option string;
  query_customer_id : option string;
  body_email : option string;
  query_email : option string
}.

(** [a || b] on optional strings. *)
Definition first_truthy (a b : option string) : option string :=
  if Js.truthy_str a then a else b.

Inductive Payload : Type :=
| ErrorBody (error : string)
| NoForecast (cartUrl message : string)
| ForecastBody (cartUrl : string) (items : list Item.t).

(** [res.status(code).json(payload)]; [res.json] alone answers 200. *)
Record Reply : Type := { code : Z; payload : Payload }.

(** [err.status || 500] *)
Definition reply_status (err : Err.t) : Z :=
  match Err.status err with
  | Some s => if s =? 0 then 500 else s
  | None => 500
  end.

(** [err.message || 'server_error'] *)
Definition reply_message (err : Err.t) : string :=
  if (Err.message err =? EmptyString)%string then "server_error"
  else Err.message err.

(** The handler of [app.post('/forecast')].  Forwarding to the webhook
    happens after the reply is determined and its failure is swallowed, so
    it does not appear in the reply. *)
Definition forecast (req : Request) (upstream : FetchOutcome) : Reply :=
  let customerId :=
    first_truthy (body_customer_id req) (query_customer_id req) in
  let email := first_truthy (body_email req) (query_email req) in
  if negb (Js.truthy_str customerId) && negb (Js.truthy_str email) then
    {| code := 400; payload := ErrorBody "Provide customer_id or email" |}
  else
    match fetchCustomerOrders upstream with
    | inl err =>
        {| code := reply_status err;
           payload := ErrorBody (reply_message err) |}
    | inr orders =>
        if (List.length orders =? 0)%nat then
          {| code := 200;
             payload :=
               NoForecast "/cart" "No purchases in the last 6 months" |}
        else
          let agg := aggregateLineItems orders in
          let forecastItems := buildForecastFromAggregates agg 6 12 in
          if (List.length forecastItems =? 0)%nat then
            {| code := 200;
               payload := NoForecast "/cart" "No forecastable items found" |}
          else
            let cartUrl := buildCartUrl forecastItems in
            {| code := 200; payload := ForecastBody cartUrl forecastItems |}
    end.

End ServerJs.

(** ** src/unnamed/part_000: one window with a monthly breakdown *)

Module Seasonal.

(** [String(month)] for the result of [getMonth()]; [None] is the [NaN] of
    an invalid date. *)
Definition month_key (m : option Z) : string :=
  match m with
  | Some m => Js.ToString m
  | None => "NaN"
  end.

(** An entry of [map]: [{ title, totalQty, monthlyQty }]. *)
Module Agg.
Record t : Type := {
  title : string;
  totalQty : Z;
  monthlyQty : Js.Object Z
}.
End Agg.

(** A forecast item: [{ variant_id, qty, title }]. *)
Module Item.
Record t : Type := { variant_id : string; qty : Z; title : string }.
End Item.

Section WithClock.
(** [new Date(s).getMonth()] and [new Date().getMonth()]. *)
Variable getMonth : string -> option Z.
Variable currentMonth : Z.

Definition add_line_item (month : option Z)
  (map : Js.Object Agg.t) (li : Shopify.LineItem) : Js.Object Agg.t :=
  let vid := Js.String_ (Shopify.vid li) in
  let map :=
    match Js.get map vid with
    | None =>
        Js.set map vid {| Agg.title := Shopify.display li;
                          Agg.totalQty := 0; Agg.monthlyQty := [] |}
    | Some _ => map
    end in
  match Js.get map vid with
  | Some e =>
      let total := Agg.totalQty e + Shopify.units li in
      let monthly :=
        Js.set (Agg.monthlyQty e) (month_key month)
          (Js.or_zero (Js.get (Agg.monthlyQty e) (month_key month))
           + Shopify.units li) in
      Js.set map vid {| Agg.title := Agg.title e; Agg.totalQty := total;
                        Agg.monthlyQty := monthly |}
  | None => map
  end.

Definition add_order (map : Js.Object Agg.t) (o : Shopify.Order)
  : Js.Object Agg.t :=
  let month := getMonth (Shopify.created_at o) in
  fold_left (add_line_item month) (Shopify.items o) map.

Definition aggregateLineItemsWithSeasonality
  (orders : list Shopify.Order) : Js.Object Agg.t :=
  fold_left add_order orders [].

(** [regularQty + seasonalQty] of the loop of [buildForecast]. *)
Definition predicted (months : Z) (data : Agg.t) : Z :=
  let avgMonthlyQty := Js.div (Agg.totalQty data) months in
  let regularQty :=
    if negb (Qle_bool avgMonthlyQty 0) then Js.Math_round avgMonthlyQty
    else 0 in
  let seasonalQty :=
    Js.or_zero (Js.get (Agg.monthlyQty data) (Js.ToString currentMonth)) in
  regularQty + seasonalQty.

(** The object pushed for an entry: [{ variant_id, qty: totalQty, title }]. *)
Definition forecast_item (months : Z) (e : string * Agg.t) : Item.t :=
  let '(variant_id, data) := e in
  let totalQty := predicted months data in
  {| Item.variant_id := variant_id; Item.qty := totalQty;
     Item.title := Agg.title data |}.

(** The body of the loop of [buildForecast]: [forecast.push] appends. *)
Definition push_entry (months : Z)
  (forecast : list Item.t) (e : string * Agg.t) : list Item.t :=
  if 0 <? predicted months (snd e) then forecast ++ [forecast_item months e]
  else forecast.

Definition by_qty_desc (a b : Item.t) : Z := Item.qty b - Item.qty a.

Definition buildForecast (itemsMap : Js.Object Agg.t) (months : Z)
  : list Item.t :=
  Js.sort by_qty_desc
    (fold_left (push_entry months) (Js.entries itemsMap) []).
End WithClock.

Definition cart_token (i : Item.t) : string :=
  (Item.variant_id i ++ ":" ++ Js.ToString (Item.qty i))%string.

Definition buildCartUrl (items : list Item.t) : string :=
  let parts := List.map cart_token items in
  if (List.length parts =? 0)%nat then "/cart"
  else ("/cart/" ++ Js.join "," parts)%string.

(** *** The [/forecast] route of this revision

    [shopifyFetch] is the one of server.js, word for word. *)

(** [data.orders || []] *)
Definition fetchCustomerOrders (outcome : ServerJs.FetchOutcome)
  : ServerJs.Err.t + list Shopify.Order :=
  match ServerJs.shopifyFetch outcome with
  | inl err => inl err
  | inr data =>
      inr (match ServerJs.orders data with Some l => l | None => [] end)
  end.

Inductive Payload : Type :=
| ErrorBody (error : string)
| ForecastBody (cartUrl : string) (items : list Item.t).

Record Reply : Type := { code : Z; payload : Payload }.

(** The handler of [app.post('/forecast')]; [getMonth] and [currentMonth]
    are the clock the aggregator and the forecaster read. *)
Definition forecast (getMonth : string -> option Z) (currentMonth : Z)
  (req : ServerJs.Request) (upstream : ServerJs.FetchOutcome) : Reply :=
  let customerId :=
    ServerJs.first_truthy (ServerJs.body_customer_id req)
      (ServerJs.query_customer_id req) in
  let email :=
    ServerJs.first_truthy (ServerJs.body_email req) (ServerJs.query_email req) in
  if negb (Js.truthy_str customerId) && negb (Js.truthy_str email) then
    {| code := 400; payload := ErrorBody "Provide customer_id or email" |}
  else
    match fetchCustomerOrders upstream with
    | inl err =>
        {| code := ServerJs.reply_status err;
           payload := ErrorBody (ServerJs.reply_message err) |}
    | inr orders =>
        if (List.length orders =? 0)%nat then
          {| code := 200; payload := ForecastBody "/cart" [] |}
        else
          let agg := aggregateLineItemsWithSeasonality getMonth orders in
          let forecastItems := buildForecast currentMonth agg 6 in
          let cartUrl := buildCartUrl forecastItems in
          {| code := 200; payload := ForecastBody cartUrl forecastItems |}
    end.

End Seasonal.

(** ** src/unnamed/part_001: recent window + seasonal window *)

Module TwoWindow.

Definition TOP_ITEMS : Z := 20.

(** An entry of [map]: [{ title, totalQty }]. *)
Module Agg.
Record t : Type := { title : string; totalQty : Z }.
End Agg.

(** A forecast item: [{ variant_id, qty, title }]. *)
Module Item.
Record t : Type := { variant_id : string; qty : Z; title : string }.
End Item.

(** The body shared by the two inner loops of
    [aggregateLineItemsWithSeasonality]. *)
Definition add_line_item (map : Js.Object Agg.t) (li : Shopify.LineItem)
  : Js.Object Agg.t :=
  let vid := Js.String_ (Shopify.vid li) in
  let map :=
    match Js.get map vid with
    | None =>
        Js.set map vid {| Agg.title := Shopify.display li;
                          Agg.totalQty := 0 |}
    | Some _ => map
    end in
  match Js.get map vid with
  | Some e =>
      Js.set map vid {| Agg.title := Agg.title e;
                        Agg.totalQty := Agg.totalQty e + Shopify.units li |}
  | None => map
  end.

Section WithClock.
(** [new Date(s).getMonth()] ([None] is [NaN]) and
    [new Date().getMonth()]. *)
Variable getMonth : string -> option Z.
Variable currentMonth : Z.

(** [month !== currentMonth] *)
Definition other_month (month : option Z) : bool :=
  match month with
  | Some m => negb (m =? currentMonth)
  | None => true
  end.

Definition add_recent_order (map : Js.Object Agg.t) (o : Shopify.Order)
  : Js.Object Agg.t :=
  fold_left add_line_item (Shopify.items o) map.

Definition add_seasonal_order (map : Js.Object Agg.t) (o : Shopify.Order)
  : Js.Object Agg.t :=
  let month := getMonth (Shopify.created_at o) in
  if other_month month then map
  else fold_left add_line_item (Shopify.items o) map.

Definition aggregateLineItemsWithSeasonality
  (recentOrders seasonalOrders : list Shopify.Order) : Js.Object Agg.t :=
  let map := fold_left add_recent_order recentOrders [] in
  fold_left add_seasonal_order seasonalOrders map.
End WithClock.

(** [Math.round(avgRecentQty) > 0 ? Math.round(avgRecentQty) : 1] *)
Definition predicted (recentMonths : Z) (data : Agg.t) : Z :=
  let avgRecentQty := Js.div (Agg.totalQty data) recentMonths in
  if 0 <? Js.Math_round avgRecentQty then Js.Math_round avgRecentQty else 1.

(** The object pushed for an entry: [{ variant_id, qty: totalQty, title }]. *)
Definition forecast_item (recentMonths : Z) (e : string * Agg.t) : Item.t :=
  let '(variant_id, data) := e in
  let totalQty := predicted recentMonths data in
  {| Item.variant_id := variant_id; Item.qty := totalQty;
     Item.title := Agg.title data |}.

(** The body of the loop of [buildForecast]: [forecast.push] appends. *)
Definition push_entry (recentMonths : Z)
  (forecast : list Item.t) (e : string * Agg.t) : list Item.t :=
  forecast ++ [forecast_item recentMonths e].

(** The array [forecast] when the loop of [buildForecast] ends. *)
Definition forecast_loop (itemsMap : Js.Object Agg.t) (recentMonths : Z)
  : list Item.t :=
  fold_left (push_entry recentMonths) (Js.entries itemsMap) [].

Definition by_qty_desc (a b : Item.t) : Z := Item.qty b - Item.qty a.

Definition buildForecast
  (itemsMap : Js.Object Agg.t) (recentMonths topN : Z) : list Item.t :=
  Js.slice0 (Js.sort by_qty_desc (forecast_loop itemsMap recentMonths)) topN.

Definition cart_token (i : Item.t) : string :=
  (Item.variant_id i ++ ":" ++ Js.ToString (Item.qty i))%string.

(** [!items || !items.length] is decided on the array's length: [items] is
    always an array here. *)
Definition buildCartUrl (items : list Item.t) : string :=
  if (List.length items =? 0)%nat then "/cart"
  else ("/cart/" ++ Js.join "," (List.map cart_token items))%string.

(** *** The order source and the [/forecast] route of this revision

    [shopifyFetch] is the one of server.js, word for word.  The two fetches
    run under [Promise.all], which rejects with the error of the fetch that
    fails first; [Settled] says which of the two settles first. *)

Inductive Settled : Type :=
| RecentFirst
| SeasonalFirst.

(** [data.orders || []] *)
Definition orders_of (data : ServerJs.Data) : list Shopify.Order :=
  match ServerJs.orders data with
  | Some l => l
  | None => []
  end.

(** The result is the pair [{ recentOrders, seasonalOrders }]. *)
Definition fetchCustomerOrders (first : Settled)
  (recent seasonal : ServerJs.FetchOutcome)
  : ServerJs.Err.t + (list Shopify.Order * list Shopify.Order) :=
  match ServerJs.shopifyFetch recent, ServerJs.shopifyFetch seasonal with
  | inr recentData, inr seasonalData =>
      inr (orders_of recentData, orders_of seasonalData)
  | inl err, inr _ => inl err
  | inr _, inl err => inl err
  | inl err1, inl err2 =>
      match first with
      | RecentFirst => inl err1
      | SeasonalFirst => inl err2
      end
  end.

Inductive Payload : Type :=
| ErrorBody (error : string)
| NoForecast (cartUrl message : string)
| ForecastBody (cartUrl : string) (items : list Item.t).

Record Reply : Type := { code : Z; payload : Payload }.

(** The handler of [app.post('/forecast')]. *)
Definition forecast (getMonth : string -> option Z) (currentMonth : Z)
  (req : ServerJs.Request) (first : Settled)
  (recent seasonal : ServerJs.FetchOutcome) : Reply :=
  let customerId :=
    ServerJs.first_truthy (ServerJs.body_customer_id req)
      (ServerJs.query_customer_id req) in
  let email :=
    ServerJs.first_truthy (ServerJs.body_email req) (ServerJs.query_email req) in
  if negb (Js.truthy_str customerId) && negb (Js.truthy_str email) then
    {| code := 400; payload := ErrorBody "Provide customer_id or email" |}
  else
    match fetchCustomerOrders first recent seasonal with
    | inl err =>
        {| code := ServerJs.reply_status err;
           payload := ErrorBody (ServerJs.reply_message err) |}
    | inr (recentOrders, seasonalOrders) =>
        if (List.length recentOrders =? 0)%nat
           && (List.length seasonalOrders =? 0)%nat then
          {| code := 200;
             payload := NoForecast "/cart" "No purchases in the last 2 years" |}
        else
          let agg :=
            aggregateLineItemsWithSeasonality getMonth currentMonth
              recentOrders seasonalOrders in
          let forecastItems := buildForecast agg 6 TOP_ITEMS in
          if (List.length forecastItems =? 0)%nat then
            {| code := 200;
               payload := NoForecast "/cart" "No forecastable items found" |}
          else
            let cartUrl := buildCartUrl forecastItems in
            {| code := 200; payload := ForecastBody cartUrl forecastItems |}
    end.

End TwoWindow.

(** ** Reading a cart path back

    Not part of the program: the reading that the round-trip property of the
    cart link refers to, split on [","] and then on [":"]. *)

Module CartPath.

(** [s.split(sep)] for a one-character separator. *)
Fixpoint split (sep : ascii) (s : string) : list string :=
  match s with
  | EmptyString => [EmptyString]
  | String c s' =>
      if Ascii.eqb c sep then EmptyString :: split sep s'
      else
        match split sep s' with
        | h :: t => String c h :: t
        | [] => [String c EmptyString]
        end
  end.

Fixpoint has_char (c : ascii) (s : string) : bool :=
  match s with
  | EmptyString => false
  | String c' s' => Ascii.eqb c' c || has_char c s'
  end.

(** An identifier that is a safe path token: free of both separators. *)
Definition safe (id : string) : bool :=
  negb (has_char "," id) && negb (has_char ":" id).

Definition parse_token (tok : string) : option (string * Z) :=
  match split ":" tok with
  | [id; q] =>
      match NilZero.int_of_string q with
      | Some d => Some (id, Z.of_int d)
      | None => None
      end
  | _ => None
  end.

Fixpoint parse_tokens (toks : list string) : option (list (string * Z)) :=
  match toks with
  | [] => Some []
  | tok :: toks' =>
      match parse_token tok, parse_tokens toks' with
      | Some p, Some ps => Some (p :: ps)
      | _, _ => None
      end
  end.

(** The suffix of [url] after [prefix], when [url] starts with it. *)
Fixpoint strip (prefix url : string) : option string :=
  match prefix, url with
  | EmptyString, _ => Some url
  | String a p', String b u' =>
      if Ascii.eqb a b then strip p' u' else None
  | String _ _, EmptyString => None
  end.

(** The token of one (identifier, quantity) pair and the tokens of a
    sequence joined by commas. *)
Definition token (p : string * Z) : string :=
  (fst p ++ ":" ++ Js.ToString (snd p))%string.

Definition render (ps : list (string * Z)) : string :=
  Js.join "," (List.map token ps).

Definition parse (url : string) : option (list (string * Z)) :=
  if (url =? "/cart")%string then Some []
  else
    match strip "/cart/" url with
    | Some suffix => parse_tokens (split "," suffix)
    | None => None
    end.

End CartPath.

(** ** What the aggregation properties speak about

    The line items of an order set in processing order, the key a line item
    is filed under, and the sums and titles read off that sequence. *)

Module Contribution.

Definition key (li : Shopify.LineItem) : string :=
  Js.String_ (Shopify.vid li).

Definition keyed (k : string) (li : Shopify.LineItem) : bool :=
  (key li =? k)%string.

(** A line item with a variant or a product identifier. *)
Definition identified (li : Shopify.LineItem) : bool :=
  Js.truthy (Shopify.vid li).

Definition all_items (orders : list Shopify.Order) : list Shopify.LineItem :=
  flat_map Shopify.items orders.

(** The quantities of the line items filed under [k], added up. *)
Fixpoint units_of (k : string) (lis : list Shopify.LineItem) : Z :=
  match lis with
  | [] => 0
  | li :: lis' =>
      (if keyed k li then Shopify.units li else 0) + units_of k lis'
  end.

(** The title of the first line item filed under [k]. *)
Definition first_title (k : string) (lis : list Shopify.LineItem)
  : option string :=
  option_map Shopify.display (find (keyed k) lis).


(** The order was created in calendar month [m]. *)
Definition in_month (getMonth : string -> option Z) (m : Z)
  (o : Shopify.Order) : bool :=
  match getMonth (Shopify.created_at o) with
  | Some m' => m' =? m
  | None => false
  end.

End Contribution.

(** ** The orders read by hand

    What a reader of the order source's JSON works out from the fields of an
    order and of a line item, without the program: the reference the totals
    and quantities of the program are compared with. *)

Module Ledger.

(** An integer in decimal. *)
Definition decimal (n : Z) : string := NilZero.string_of_int (Z.to_int n).

Definition printed (v : Js.Id) : string :=
  match v with
  | Js.Undefined => "undefined"
  | Js.Null => "null"
  | Js.Num n => decimal n
  end.

(** The identifier of a line item as a key: the variant identifier when it
    is a non-zero number, else whatever the product identifier is. *)
Definition key_of (li : Shopify.LineItem) : string :=
  match Shopify.variant_id li with
  | Js.Num n =>
      if n =? 0 then printed (Shopify.product_id li) else decimal n
  | _ => printed (Shopify.product_id li)
  end.

(** The line item carries a variant or a product identifier. *)
Definition has_id (li : Shopify.LineItem) : bool :=
  match Shopify.variant_id li, Shopify.product_id li with
  | Js.Num n, Js.Num m => negb (n =? 0) || negb (m =? 0)
  | Js.Num n, _ => negb (n =? 0)
  | _, Js.Num m => negb (m =? 0)
  | _, _ => false
  end.

(** The quantity of a line item, 0 when it has none. *)
Definition quantity_of (li : Shopify.LineItem) : Z :=
  match Shopify.quantity li with
  | Some q => q
  | None => 0
  end.

(** The line items of an order, none when it has no list. *)
Definition line_items_of (o : Shopify.Order) : list Shopify.LineItem :=
  match Shopify.line_items o with
  | Some lis => lis
  | None => []
  end.

Fixpoint line_items_in (orders : list Shopify.Order) : list Shopify.LineItem :=
  match orders with
  | [] => []
  | o :: os => line_items_of o ++ line_items_in os
  end.

(** The quantities of the line items of key [k], added up. *)
Fixpoint sum_for (k : string) (lis : list Shopify.LineItem) : Z :=
  match lis with
  | [] => 0
  | li :: lis' =>
      (if (key_of li =? k)%string then quantity_of li else 0) + sum_for k lis'
  end.

(** The orders created in calendar month [m]. *)
Fixpoint created_in (getMonth : string -> option Z) (m : Z)
  (orders : list Shopify.Order) : list Shopify.Order :=
  match orders with
  | [] => []
  | o :: os =>
      match getMonth (Shopify.created_at o) with
      | Some m' =>
          if m' =? m then o :: created_in getMonth m os
          else created_in getMonth m os
      | None => created_in getMonth m os
      end
  end.

(** [total / months] rounded to the nearest integer, a tie going up, for a
    positive [months]: the integer [r] with
    [r - 1/2 <= total / months < r + 1/2]. *)
Definition round_half_up (total months : Z) : Z :=
  (2 * total + months) / (2 * months).

End Ledger.

(** The item the two-window forecaster owes an entry, worked out by hand:
    the entry's key and title, and as quantity the rounded monthly average,
    or 1 when that is not positive. *)
Definition owed_item (months : Z) (e : string * TwoWindow.Agg.t)
  : TwoWindow.Item.t :=
  let r := Ledger.round_half_up (TwoWindow.Agg.totalQty (snd e)) months in
  {| TwoWindow.Item.variant_id := fst e;
     TwoWindow.Item.qty := if 0 <? r then r else 1;
     TwoWindow.Item.title := TwoWindow.Agg.title (snd e) |}.

(** The quantity the one-window seasonal forecaster owes an entry, worked
    out by hand: the rounded monthly average when the total is positive,
    plus what was bought in the current month. *)
Definition seasonal_owed_quantity (currentMonth months : Z)
  (data : Seasonal.Agg.t) : Z :=
  (if 0 <? Seasonal.Agg.totalQty data
   then Ledger.round_half_up (Seasonal.Agg.totalQty data) months
   else 0)
  + match Js.get (Seasonal.Agg.monthlyQty data) (Ledger.decimal currentMonth)
    with
    | Some q => q
    | None => 0
    end.

(** ** Ranking *)

(** [a] may stand before [b] in a sequence of descending [rank]. *)
Definition descending {A : Type} (rank : A -> Z) (a b : A) : Prop :=
  rank b <= rank a.

(** The running total filed under [k] in a two-window aggregate, 0 when
    there is no entry. *)
Definition total_at (map : Js.Object TwoWindow.Agg.t) (k : string) : Z :=
  match Js.get map k with
  | Some data => TwoWindow.Agg.totalQty data
  | None => 0
  end.

(** The accumulated total of the entry a two-window forecast item was made
    from (the item itself does not carry it). *)
Definition entry_total (map : Js.Object TwoWindow.Agg.t)
  (i : TwoWindow.Item.t) : Z :=
  total_at map (TwoWindow.Item.variant_id i).

(** The display title filed under [k], if there is an entry. *)
Definition title_at (map : Js.Object TwoWindow.Agg.t) (k : string)
  : option string :=
  option_map TwoWindow.Agg.title (Js.get map k).

Definition server_title_at (map : Js.Object ServerJs.Agg.t) (k : string)
  : option string :=
  option_map ServerJs.Agg.title (Js.get map k).

Definition server_total_at (map : Js.Object ServerJs.Agg.t) (k : string) : Z :=
  match Js.get map k with
  | Some v => ServerJs.Agg.qty v
  | None => 0
  end.

(** ** The seasonal aggregate *)

(** The entry a line item is added to in the one-window seasonal variant: the
    one under its key, or a fresh one. *)
Definition seasonal_entry (map : Js.Object Seasonal.Agg.t)
  (li : Shopify.LineItem) : Seasonal.Agg.t :=
  match Js.get map (Contribution.key li) with
  | Some e => e
  | None => {| Seasonal.Agg.title := Shopify.display li;
               Seasonal.Agg.totalQty := 0;
               Seasonal.Agg.monthlyQty := [] |}
  end.

(** Every monthly quantity of an entry lies between 0 and the entry's
    total. *)
Definition monthly_within_total (map : Js.Object Seasonal.Agg.t) : Prop :=
  forall k data mk,
    Js.get map k = Some data ->
    0 <= Js.or_zero (Js.get (Seasonal.Agg.monthlyQty data) mk)
      <= Seasonal.Agg.totalQty data.

(** Every key of the object is a safe path token. *)
Definition safe_keys {V : Type} (o : Js.Object V) : Prop :=
  Forall (fun k => CartPath.safe k = true) (Js.keys o).

(** ** Requests and cart pairs *)

(** The request names a customer: by identifier or by email, in the body or
    in the query. *)
Definition names_customer (req : ServerJs.Request) : bool :=
  Js.truthy_str
    (ServerJs.first_truthy (ServerJs.body_customer_id req)
       (ServerJs.query_customer_id req))
  || Js.truthy_str
       (ServerJs.first_truthy (ServerJs.body_email req)
          (ServerJs.query_email req)).

(** The (identifier, quantity) pair of a forecast item. *)
Definition server_pair (i : ServerJs.Item.t) : string * Z :=
  (ServerJs.Item.variant_id i, ServerJs.Item.qty i).

Definition two_window_pair (i : TwoWindow.Item.t) : string * Z :=
  (TwoWindow.Item.variant_id i, TwoWindow.Item.qty i).

(** ** Reading the seasonal aggregate *)

(** The running total filed under [k] in a seasonal aggregate, 0 when there
    is no entry. *)
Definition seasonal_total_at (map : Js.Object Seasonal.Agg.t) (k : string)
  : Z :=
  match Js.get map k with
  | Some data => Seasonal.Agg.totalQty data
  | None => 0
  end.



(** The values of an object, added up. *)
Fixpoint sum_values (o : Js.Object Z) : Z :=
  match o with
  | [] => 0
  | (_, v) :: o' => v + sum_values o'
  end.

(** In the entry the monthly quantities add up to the total. *)
Definition months_add_up (e : string * Seasonal.Agg.t) : Prop :=
  sum_values (Seasonal.Agg.monthlyQty (snd e)) = Seasonal.Agg.totalQty (snd e).

Definition seasonal_pair (i : Seasonal.Item.t) : string * Z :=
  (Seasonal.Item.variant_id i, Seasonal.Item.qty i).

(** The link of a sequence of (identifier, quantity) pairs. *)
Definition cart_url_of_pairs (ps : list (string * Z)) : string :=
  match ps with
  | [] => "/cart"
  | _ :: _ => ("/cart/" ++ CartPath.render ps)%string
  end.

(** ** Sample data *)

Module Sample.

Definition line (vid : Js.Id) (ttl : option string) (q : option Z)
  : Shopify.LineItem :=
  {| Shopify.variant_id := vid; Shopify.product_id := Js.Undefined;
     Shopify.name := None; Shopify.title := ttl; Shopify.quantity := q |}.

Definition order (created : string) (lis : list Shopify.LineItem)
  : Shopify.Order :=
  {| Shopify.created_at := created; Shopify.line_items := Some lis |}.

(** [getMonth()] of a process running in UTC, on ISO timestamps
    [YYYY-MM-DDThh:mm:ssZ]. *)
Definition utcMonth (s : string) : option Z :=
  match NilZero.uint_of_string (substring 5 2 s) with
  | Some d => Some (Z.of_N (N.of_uint d) - 1)
  | None => None
  end.

Definition soap : Z := 41000000000001.
Definition tea : Z := 41000000000002.

(** One order in May: one unit of soap, two of tea. *)
Definition may_order : Shopify.Order :=
  order "2024-05-02T10:00:00Z"
    [line (Js.Num soap) (Some "Soap") (Some 1);
     line (Js.Num tea) (Some "Tea") (Some 2)].

(** One order in January: three units of soap. *)
Definition january_order : Shopify.Order :=
  order "2024-01-15T09:30:00Z" [line (Js.Num soap) (Some "Soap") (Some 3)].

(** An order whose only line item has no quantity. *)
Definition unquantified_order : Shopify.Order :=
  order "2024-05-03T08:00:00Z" [line (Js.Num soap) (Some "Soap") None].

(** An order whose only line item has neither identifier. *)
Definition anonymous_order : Shopify.Order :=
  order "2024-05-04T08:00:00Z" [line Js.Undefined (Some "Gift wrap") (Some 2)].


(** A request naming customer 42 and an upstream answer 401. *)
Definition request_42 : ServerJs.Request :=
  {| ServerJs.body_customer_id := Some "42";
     ServerJs.query_customer_id := None;
     ServerJs.body_email := None;
     ServerJs.query_email := None |}.

Definition unauthorized : ServerJs.Response :=
  {| ServerJs.ok := false; ServerJs.status := 401;
     ServerJs.text := "Unauthorized";
     ServerJs.json := inl "Unexpected token U in JSON at position 0" |}.

(** The forecast of scenario 2 of the specification. *)
Definition one_item : list ServerJs.Item.t :=
  [ {| ServerJs.Item.variant_id := "111"; ServerJs.Item.qty := 1;
       ServerJs.Item.title := "Soap"; ServerJs.Item.totalQty := 6 |} ].

Definition one_item' : list TwoWindow.Item.t :=
  [ {| TwoWindow.Item.variant_id := "111"; TwoWindow.Item.qty := 1;
       TwoWindow.Item.title := "Soap" |} ].

(** One order with two units of soap and two of tea. *)
Definition even_order : Shopify.Order :=
  order "2024-05-06T08:00:00Z"
    [line (Js.Num soap) (Some "Soap") (Some 2);
     line (Js.Num tea) (Some "Tea") (Some 2)].

(** A success answer carrying [orders]. *)
Definition answer (orders : list Shopify.Order) : ServerJs.Response :=
  {| ServerJs.ok := true; ServerJs.status := 200;
     ServerJs.text := "{}";
     ServerJs.json := inr {| ServerJs.orders := Some orders |} |}.

(** The two-window aggregate of [may_order] as the only recent order, in
    May. *)
Definition may_map : Js.Object TwoWindow.Agg.t :=
  TwoWindow.aggregateLineItemsWithSeasonality utcMonth 4 [may_order] [].

End Sample.

(** * Properties *)

(** ** The program's readers against the orders read by hand *)

Lemma ledger_decimal n : Ledger.decimal n = Js.ToString n.
Proof. reflexivity. Qed.

Lemma ledger_key li : Ledger.key_of li = Contribution.key li.
Proof.
  unfold Ledger.key_of, Contribution.key, Shopify.vid, Js.or, Js.truthy.
  destruct (Shopify.variant_id li) as [| | [| p | p]];
    destruct (Shopify.product_id li); reflexivity.
Qed.

Lemma ledger_has_id li : Ledger.has_id li = Contribution.identified li.
Proof.
  unfold Ledger.has_id, Contribution.identified, Shopify.vid, Js.or, Js.truthy.
  destruct (Shopify.variant_id li) as [| | [| p | p]];
    destruct (Shopify.product_id li) as [| | [| q | q]]; reflexivity.
Qed.

Lemma ledger_quantity li : Ledger.quantity_of li = Shopify.units li.
Proof. unfold Ledger.quantity_of, Shopify.units, Js.or_zero. reflexivity. Qed.

Lemma ledger_line_items orders :
  Ledger.line_items_in orders = Contribution.all_items orders.
Proof.
  induction orders as [| o os IH]; simpl; [reflexivity |].
  now rewrite IH.
Qed.

Lemma ledger_sum k lis : Ledger.sum_for k lis = Contribution.units_of k lis.
Proof.
  induction lis as [| li lis IH]; simpl; [reflexivity |].
  unfold Contribution.keyed. now rewrite IH, ledger_key, ledger_quantity.
Qed.

Lemma ledger_created_in getMonth m orders :
  Ledger.created_in getMonth m orders
  = filter (Contribution.in_month getMonth m) orders.
Proof.
  induction orders as [| o os IH]; simpl; [reflexivity |].
  unfold Contribution.in_month at 1.
  destruct (getMonth (Shopify.created_at o)) as [m' |]; [| exact IH].
  destruct (m' =? m); now rewrite IH.
Qed.


(** ** Objects *)

Section ObjectFacts.
Context {V : Type}.
Implicit Types (o : Js.Object V) (k : string) (v : V).

Lemma get_set_same o k v : Js.get (Js.set o k v) k = Some v.
Proof.
  induction o as [| [k' v'] o IH]; simpl.
  - now rewrite String.eqb_refl.
  - destruct (String.eqb_spec k' k) as [->|Hne]; simpl.
    + now rewrite String.eqb_refl.
    + destruct (String.eqb_spec k' k); [contradiction | exact IH].
Qed.

Lemma get_set_other o k k' v :
  k <> k' -> Js.get (Js.set o k v) k' = Js.get o k'.
Proof.
  intros Hne. induction o as [| [k0 v0] o IH]; simpl.
  - destruct (String.eqb_spec k k'); [contradiction | reflexivity].
  - destruct (String.eqb_spec k0 k) as [->|H0]; simpl.
    + destruct (String.eqb_spec k k'); [contradiction | reflexivity].
    + now rewrite IH.
Qed.

Lemma get_none_keys o k : Js.get o k = None <-> ~ In k (Js.keys o).
Proof.
  induction o as [| [k' v'] o IH]; simpl.
  - tauto.
  - destruct (String.eqb_spec k' k) as [->|Hne].
    + split; [discriminate | intros H; exfalso; apply H; now left].
    + rewrite IH. tauto.
Qed.

Lemma get_some_in o k v : Js.get o k = Some v -> In (k, v) o.
Proof.
  induction o as [| [k' v'] o IH]; simpl; [discriminate |].
  destruct (String.eqb_spec k' k) as [->|Hne].
  - intros [= ->]. now left.
  - intros H. right. now apply IH.
Qed.

Lemma in_get_some o k v :
  NoDup (Js.keys o) -> In (k, v) o -> Js.get o k = Some v.
Proof.
  induction o as [| [k' v'] o IH]; simpl; [tauto |].
  intros Hnd [[= -> ->] | Hin].
  - now rewrite String.eqb_refl.
  - inversion Hnd as [| ? ? Hnotin Hnd']; subst.
    destruct (String.eqb_spec k' k) as [->|Hne].
    + exfalso. apply Hnotin. change k with (fst (k, v)).
      now apply in_map.
    + now apply IH.
Qed.

Lemma keys_set_present o k v :
  In k (Js.keys o) -> Js.keys (Js.set o k v) = Js.keys o.
Proof.
  induction o as [| [k' v'] o IH]; simpl; [tauto |].
  destruct (String.eqb_spec k' k) as [->|Hne]; simpl.
  - reflexivity.
  - intros [H | H]; [contradiction | now rewrite IH].
Qed.

Lemma keys_set_absent o k v :
  ~ In k (Js.keys o) -> Js.keys (Js.set o k v) = Js.keys o ++ [k].
Proof.
  induction o as [| [k' v'] o IH]; simpl; [reflexivity |].
  intros H. destruct (String.eqb_spec k' k) as [->|Hne]; simpl.
  - exfalso. apply H. now left.
  - rewrite IH; [reflexivity | tauto].
Qed.

(** Writing a property keeps the keys of an object distinct. *)
Lemma set_keys_nodup o k v :
  NoDup (Js.keys o) -> NoDup (Js.keys (Js.set o k v)).
Proof.
  intros Hnd. destruct (in_dec string_dec k (Js.keys o)) as [Hin | Hout].
  - now rewrite keys_set_present.
  - rewrite keys_set_absent by assumption.
    apply Permutation_NoDup with (l := k :: Js.keys o).
    + apply Permutation_cons_append.
    + now constructor.
Qed.

Lemma insert_by_index_perm (e : string * V) l :
  Permutation (Js.insert_by_index e l) (e :: l).
Proof.
  induction l as [| e' l IH]; simpl; [reflexivity |].
  destruct (Js.index_of e <=? Js.index_of e')%N; [reflexivity |].
  rewrite IH. apply perm_swap.
Qed.

Lemma sort_by_index_perm (l : list (string * V)) :
  Permutation (Js.sort_by_index l) l.
Proof.
  induction l as [| e l IH]; simpl; [reflexivity |].
  rewrite insert_by_index_perm. now constructor.
Qed.

Lemma filter_split_perm {A} (f : A -> bool) (l : list A) :
  Permutation (filter f l ++ filter (fun a => negb (f a)) l) l.
Proof.
  induction l as [| a l IH]; simpl; [reflexivity |].
  destruct (f a); simpl.
  - now constructor.
  - rewrite <- Permutation_middle. now constructor.
Qed.

(** [Object.entries] lists every own property once. *)
Lemma entries_perm o : Permutation (Js.entries o) o.
Proof.
  unfold Js.entries. rewrite sort_by_index_perm. apply filter_split_perm.
Qed.

Lemma entries_keys_nodup o :
  NoDup (Js.keys o) -> NoDup (map fst (Js.entries o)).
Proof.
  intros Hnd. apply Permutation_NoDup with (l := Js.keys o); [| exact Hnd].
  symmetry. apply Permutation_map, entries_perm.
Qed.
End ObjectFacts.

(** ** Arrays *)

Section ArrayFacts.
Context {A : Type}.

Lemma sort_insert_perm (cmp : A -> A -> Z) x l :
  Permutation (Js.sort_insert cmp x l) (x :: l).
Proof.
  induction l as [| y l IH]; simpl; [reflexivity |].
  destruct (cmp x y <=? 0); [reflexivity |].
  rewrite IH. apply perm_swap.
Qed.

(** [sort] rearranges, it neither drops nor duplicates. *)
Lemma sort_perm (cmp : A -> A -> Z) l : Permutation (Js.sort cmp l) l.
Proof.
  induction l as [| x l IH]; simpl; [reflexivity |].
  rewrite sort_insert_perm. now constructor.
Qed.

Section ByKey.
Variable rank : A -> Z.

Let cmp (a b : A) : Z := rank b - rank a.

Lemma sort_insert_descending x l :
  StronglySorted (descending rank) l ->
  StronglySorted (descending rank) (Js.sort_insert cmp x l).
Proof.
  induction 1 as [| y l Hl IH Hy]; simpl.
  - repeat constructor.
  - unfold cmp at 1. destruct (Z.leb_spec (rank y - rank x) 0) as [Hle | Hgt].
    + constructor; [now constructor |].
      constructor; [unfold descending; lia |].
      eapply Forall_impl; [| exact Hy].
      unfold descending. intros b Hb. lia.
    + constructor; [exact IH |].
      eapply Permutation_Forall.
      * symmetry. apply sort_insert_perm.
      * constructor; [unfold descending; lia | exact Hy].
Qed.

(** Sorting with [(a, b) => rank(b) - rank(a)] puts ranks in descending
    order. *)
Lemma sort_descending l :
  StronglySorted (descending rank) (Js.sort cmp l).
Proof.
  induction l as [| x l IH]; simpl; [constructor |].
  now apply sort_insert_descending.
Qed.
End ByKey.

Lemma firstn_in n (l : list A) x : In x (firstn n l) -> In x l.
Proof.
  revert l. induction n as [| n IH]; intros [| y l]; simpl; try tauto.
  intros [-> | H]; [now left | right; now apply IH].
Qed.

Lemma firstn_strongly_sorted (R : A -> A -> Prop) n l :
  StronglySorted R l -> StronglySorted R (firstn n l).
Proof.
  intros H. revert n. induction H as [| x l Hl IH Hx]; intros [| n]; simpl;
    try constructor.
  - apply IH.
  - rewrite Forall_forall in *. intros y Hy. apply Hx.
    eapply firstn_in; eauto.
Qed.

Lemma firstn_nodup n (l : list A) : NoDup l -> NoDup (firstn n l).
Proof.
  intros H. revert n. induction H as [| x l Hx Hl IH]; intros [| n]; simpl;
    try constructor.
  - intros Hin. apply Hx. eapply firstn_in; eauto.
  - apply IH.
Qed.

Lemma slice0_firstn (l : list A) end_ :
  exists n, Js.slice0 l end_ = firstn n l.
Proof. unfold Js.slice0. eauto. Qed.

(** A non-negative [end] bounds the length of [slice(0, end)]. *)
Lemma slice0_length (l : list A) end_ :
  0 <= end_ -> Z.of_nat (List.length (Js.slice0 l end_)) <= end_.
Proof.
  intros H. unfold Js.slice0.
  destruct (Z.ltb_spec end_ 0) as [Hneg | _]; [lia |].
  rewrite length_firstn. lia.
Qed.

Lemma slice0_incl (l : list A) end_ x :
  In x (Js.slice0 l end_) -> In x l.
Proof.
  destruct (slice0_firstn l end_) as [n ->]. apply firstn_in.
Qed.
End ArrayFacts.

(** ** Rounding *)

Section RoundingFacts.

(** [Math.round] picks the integer within one half of its argument, the
    upper one on a tie. *)
Lemma Math_round_half_up (x : Q) :
  (inject_Z (Js.Math_round x) - (1 # 2) <= x
   /\ x < inject_Z (Js.Math_round x) + (1 # 2))%Q.
Proof.
  unfold Js.Math_round.
  pose proof (Qfloor_le (x + (1 # 2))) as Hlo.
  pose proof (Qlt_floor (x + (1 # 2))) as Hhi.
  rewrite inject_Z_plus in Hhi.
  change (inject_Z 1) with 1%Q in Hhi.
  split; lra.
Qed.

(** The rounded monthly average in integer arithmetic. *)
Lemma Math_round_div (t m : Z) :
  0 < m -> Js.Math_round (Js.div t m) = (2 * t + m) / (2 * m).
Proof.
  intros Hm. destruct m as [| p | p]; try lia.
  unfold Js.Math_round.
  assert (E : (Js.div t (Z.pos p) + (1 # 2) == (2 * t + Z.pos p) # (2 * p))%Q).
  { unfold Js.div. rewrite (Qmake_Qdiv (2 * t + Z.pos p) (2 * p)).
    rewrite Pos2Z.inj_mul, inject_Z_plus, !inject_Z_mult. field.
    intros H. discriminate H. }
  rewrite E. reflexivity.
Qed.

Lemma Math_round_div_mono (t t' m : Z) :
  0 < m -> t <= t' ->
  Js.Math_round (Js.div t m) <= Js.Math_round (Js.div t' m).
Proof.
  intros Hm Ht. rewrite !Math_round_div by assumption.
  apply Z.div_le_mono; lia.
Qed.

Lemma Math_round_div_nonneg (t m : Z) :
  0 < m -> 0 <= t -> 0 <= Js.Math_round (Js.div t m).
Proof.
  intros Hm Ht. rewrite Math_round_div by assumption.
  apply Z.div_pos; lia.
Qed.

Lemma Math_round_div_nonpos (t m : Z) :
  0 < m -> t <= 0 -> Js.Math_round (Js.div t m) <= 0.
Proof.
  intros Hm Ht. rewrite Math_round_div by assumption.
  assert ((2 * t + m) / (2 * m) < 1); [| lia].
  apply Z.div_lt_upper_bound; lia.
Qed.

Lemma div_positive (t m : Z) :
  0 < m -> (Qle_bool (Js.div t m) 0 = negb (0 <? t)).
Proof.
  intros Hm. destruct m as [| p | p]; try lia.
  unfold Js.div, Qdiv, Qinv, inject_Z, Qle_bool; simpl.
  destruct (Z.ltb_spec 0 t); simpl.
  - apply Z.leb_gt. lia.
  - apply Z.leb_le. lia.
Qed.
End RoundingFacts.

Lemma round_half_up_bounds (total months : Z) :
  0 < months ->
  months * (2 * Ledger.round_half_up total months - 1) <= 2 * total
  /\ 2 * total < months * (2 * Ledger.round_half_up total months + 1).
Proof.
  intros Hm. unfold Ledger.round_half_up.
  pose proof (Z.div_mod (2 * total + months) (2 * months) ltac:(lia)) as Hd.
  pose proof (Z.mod_pos_bound (2 * total + months) (2 * months) ltac:(lia))
    as Hr.
  nia.
Qed.

(** An integer within one half of [total / months], the upper one on a tie,
    is the rounded value. *)
Lemma round_half_up_unique (total months r : Z) :
  0 < months ->
  months * (2 * r - 1) <= 2 * total < months * (2 * r + 1) ->
  r = Ledger.round_half_up total months.
Proof.
  intros Hm Hr. destruct (round_half_up_bounds total months Hm) as [Hlo Hhi].
  nia.
Qed.

(** C2 (as amended). With a positive window length the forecaster starts
    from [r], the monthly average [totalQty / months] rounded to the nearest
    integer, a tie going up ([r - 1/2 <= totalQty / months < r + 1/2], and
    [r] is the only such integer).  In server.js the predicted quantity is 1
    when [r < 1] and the total is positive, [r] itself when [r < 1] and the
    total is not positive, and [min(r, 50)] when [r >= 1].  In the
    two-window variant it is [r] when [r >= 1] and 1 whenever [r < 1],
    whatever the total. *)
Theorem predicted_quantity_rounds_half_up_with_floor
  (total months : Z) (id ttl : string) :
  0 < months ->
  let r := Ledger.round_half_up total months in
  let server_qty :=
    ServerJs.Item.qty
      (ServerJs.forecast_entry months
         (id, {| ServerJs.Agg.qty := total; ServerJs.Agg.title := ttl |})) in
  let two_window_qty :=
    TwoWindow.predicted months
      {| TwoWindow.Agg.title := ttl; TwoWindow.Agg.totalQty := total |} in
  (months * (2 * r - 1) <= 2 * total /\ 2 * total < months * (2 * r + 1))
  /\ (forall r' : Z,
         months * (2 * r' - 1) <= 2 * total < months * (2 * r' + 1) -> r' = r)
  /\ Js.Math_round (Js.div total months) = r
  /\ server_qty
     = (if r <? 1 then (if 0 <? total then 1 else r) else Z.min r 50)
  /\ two_window_qty = (if r <? 1 then 1 else r).
Proof.
  intros Hm r server_qty two_window_qty.
  split; [now apply round_half_up_bounds |].
  split; [intros r' Hr'; now apply round_half_up_unique |].
  assert (E : Js.Math_round (Js.div total months) = r)
    by now apply Math_round_div.
  split; [exact E |].
  subst server_qty two_window_qty.
  unfold ServerJs.forecast_entry, TwoWindow.predicted; simpl.
  rewrite !E.
  split.
  - destruct (Z.ltb_spec r 1); destruct (Z.ltb_spec 0 total); simpl; lia.
  - destruct (Z.ltb_spec r 1); destruct (Z.ltb_spec 0 r); lia.
Qed.

Lemma predicted_quantity_rounds_half_up_with_floor_witness :
  ServerJs.Item.qty
    (ServerJs.forecast_entry 6
       ("222", {| ServerJs.Agg.qty := 1; ServerJs.Agg.title := "Tea" |})) = 1
  /\ TwoWindow.predicted 6
       {| TwoWindow.Agg.title := "Tea"; TwoWindow.Agg.totalQty := 1 |} = 1.
Proof.
  destruct (predicted_quantity_rounds_half_up_with_floor 1 6 "222" "Tea")
    as (_ & _ & _ & H1 & H2); [lia |].
  split; [exact H1 | exact H2].
Defined.

(** C2, as stated, fails: for a total of 1000 over 6 months the rounded
    average is 167 and server.js predicts 50; for a total of 0 the rounded
    average is 0 and the two-window variant predicts 1. *)
Lemma predicted_quantity_is_not_the_rounded_average :
  Js.Math_round (Js.div 1000 6) = 167
  /\ ServerJs.Item.qty
       (ServerJs.forecast_entry 6
          ("222",
           {| ServerJs.Agg.qty := 1000; ServerJs.Agg.title := "Tea" |})) = 50
  /\ Js.Math_round (Js.div 0 6) = 0
  /\ TwoWindow.predicted 6
       {| TwoWindow.Agg.title := "Tea"; TwoWindow.Agg.totalQty := 0 |} = 1.
Proof. repeat split. Qed.

(** ** The forecasters *)

Lemma fold_left_push {A B : Type} (f : A -> B) (l : list A) (acc : list B) :
  fold_left (fun acc e => acc ++ [f e]) l acc = acc ++ map f l.
Proof.
  revert acc. induction l as [| e l IH]; intros acc; simpl.
  - now rewrite app_nil_r.
  - rewrite IH, <- app_assoc. reflexivity.
Qed.

Lemma in_sort_slice {A : Type} (cmp : A -> A -> Z) (l : list A) end_ x :
  In x (Js.slice0 (Js.sort cmp l) end_) -> In x l.
Proof.
  intros H. apply slice0_incl in H.
  eapply Permutation_in; [apply sort_perm | exact H].
Qed.

Lemma sort_slice_descending {A : Type} (rank : A -> Z) (l : list A) end_ :
  StronglySorted (descending rank)
    (Js.slice0 (Js.sort (fun a b => rank b - rank a) l) end_).
Proof.
  destruct (slice0_firstn (Js.sort (fun a b => rank b - rank a) l) end_)
    as [n ->].
  apply firstn_strongly_sorted, sort_descending.
Qed.

Lemma sort_slice_nodup {A B : Type} (f : A -> B) cmp (l : list A) end_ :
  NoDup (map f l) -> NoDup (map f (Js.slice0 (Js.sort cmp l) end_)).
Proof.
  intros H. destruct (slice0_firstn (Js.sort cmp l) end_) as [n ->].
  rewrite <- firstn_map. apply firstn_nodup.
  eapply Permutation_NoDup; [| exact H].
  symmetry. apply Permutation_map, sort_perm.
Qed.

Section ServerJsForecast.
Import ServerJs.

Lemma server_item_ids months (es : list (string * Agg.t)) :
  map Item.variant_id (map (forecast_entry months) es) = map fst es.
Proof.
  induction es as [| [k v] es IH]; simpl; [reflexivity | now rewrite IH].
Qed.

(** Every emitted item was made from an entry of the map and carries that
    entry's total. *)
Lemma server_item_origin map months topN i :
  In i (buildForecastFromAggregates map months topN) ->
  exists v, In (Item.variant_id i, v) map
            /\ i = forecast_entry months (Item.variant_id i, v).
Proof.
  intros H. apply in_sort_slice, in_map_iff in H.
  destruct H as ([k v] & <- & Hin).
  exists v. split; [| reflexivity].
  eapply Permutation_in; [apply entries_perm | exact Hin].
Qed.

Lemma server_forecast_ids_nodup map months topN :
  NoDup (Js.keys map) ->
  NoDup (List.map Item.variant_id (buildForecastFromAggregates map months topN)).
Proof.
  intros H. apply sort_slice_nodup. rewrite server_item_ids.
  now apply entries_keys_nodup.
Qed.
End ServerJsForecast.

Section TwoWindowForecast.
Import TwoWindow.

Lemma forecast_loop_map map months :
  forecast_loop map months = List.map (forecast_item months) (Js.entries map).
Proof.
  exact (fold_left_push (forecast_item months) (Js.entries map) []).
Qed.

Lemma two_window_item_ids months (es : list (string * Agg.t)) :
  map Item.variant_id (map (forecast_item months) es) = map fst es.
Proof.
  induction es as [| [k v] es IH]; simpl; [reflexivity | now rewrite IH].
Qed.

Lemma two_window_item_origin map months topN i :
  In i (buildForecast map months topN) ->
  exists data, In (Item.variant_id i, data) map
               /\ i = forecast_item months (Item.variant_id i, data).
Proof.
  intros H. apply in_sort_slice in H. rewrite forecast_loop_map in H.
  apply in_map_iff in H. destruct H as ([k v] & <- & Hin).
  exists v. split; [| reflexivity].
  eapply Permutation_in; [apply entries_perm | exact Hin].
Qed.

Lemma two_window_forecast_ids_nodup map months topN :
  NoDup (Js.keys map) ->
  NoDup (List.map Item.variant_id (buildForecast map months topN)).
Proof.
  intros H. apply sort_slice_nodup.
  rewrite forecast_loop_map, two_window_item_ids.
  now apply entries_keys_nodup.
Qed.

Lemma predicted_at_least_one months data : 1 <= predicted months data.
Proof.
  unfold predicted.
  destruct (Z.ltb_spec 0 (Js.Math_round (Js.div (Agg.totalQty data) months)));
    lia.
Qed.

Lemma predicted_mono months d d' :
  0 < months -> Agg.totalQty d <= Agg.totalQty d' ->
  predicted months d <= predicted months d'.
Proof.
  intros Hm Hle. unfold predicted.
  pose proof (Math_round_div_mono _ _ _ Hm Hle) as Hr.
  destruct (Z.ltb_spec 0 (Js.Math_round (Js.div (Agg.totalQty d) months)));
    destruct (Z.ltb_spec 0 (Js.Math_round (Js.div (Agg.totalQty d') months)));
    lia.
Qed.
End TwoWindowForecast.

Section SeasonalForecast.
Import Seasonal.
Variable currentMonth : Z.

Lemma seasonal_loop_filter months (es : list (string * Agg.t)) acc :
  fold_left (push_entry currentMonth months) es acc
  = acc ++ map (forecast_item currentMonth months)
             (filter (fun e => 0 <? predicted currentMonth months (snd e)) es).
Proof.
  revert acc. induction es as [| e es IH]; intros acc; simpl.
  - now rewrite app_nil_r.
  - rewrite IH. unfold push_entry at 1.
    destruct (0 <? predicted currentMonth months (snd e)); simpl.
    + now rewrite <- app_assoc.
    + reflexivity.
Qed.

Lemma seasonal_item_ids months (es : list (string * Agg.t)) :
  map Item.variant_id (map (forecast_item currentMonth months) es) = map fst es.
Proof.
  induction es as [| [k v] es IH]; simpl; [reflexivity | now rewrite IH].
Qed.

(** Every emitted item was made from an entry whose predicted quantity is
    positive. *)
Lemma seasonal_item_origin map months i :
  In i (buildForecast currentMonth map months) ->
  exists data, In (Item.variant_id i, data) map
               /\ 0 < predicted currentMonth months data
               /\ i = forecast_item currentMonth months (Item.variant_id i, data).
Proof.
  unfold buildForecast. intros H.
  eapply Permutation_in in H; [| apply sort_perm].
  rewrite seasonal_loop_filter in H. simpl in H.
  apply in_map_iff in H. destruct H as ([k v] & <- & Hin).
  apply filter_In in Hin. destruct Hin as [Hin Hpos].
  exists v. simpl in *. repeat split.
  - eapply Permutation_in; [apply entries_perm | exact Hin].
  - now apply Z.ltb_lt.
Qed.

Lemma filter_map_fst_nodup {V : Type} (f : string * V -> bool) l :
  NoDup (map fst l) -> NoDup (map fst (filter f l)).
Proof.
  induction l as [| e l IH]; simpl; [trivial |].
  intros H. inversion H as [| ? ? Hnotin Hnd]; subst.
  destruct (f e); simpl; [constructor |]; auto.
  intros Hin. apply Hnotin. apply in_map_iff in Hin.
  destruct Hin as (e' & He & Hin'). apply filter_In in Hin'.
  apply in_map_iff. exists e'. tauto.
Qed.

Lemma seasonal_forecast_ids_nodup map months :
  NoDup (Js.keys map) ->
  NoDup (List.map Item.variant_id (buildForecast currentMonth map months)).
Proof.
  intros H. unfold buildForecast.
  eapply Permutation_NoDup.
  - symmetry. apply Permutation_map, sort_perm.
  - rewrite seasonal_loop_filter. simpl. rewrite seasonal_item_ids.
    apply filter_map_fst_nodup. now apply entries_keys_nodup.
Qed.
End SeasonalForecast.

(** ** Ranking, bound and duplicates *)

(** C1 (as amended). The sequence returned by [buildForecastFromAggregates]
    of server.js is in descending order of the entries' accumulated totals,
    each item carrying the total of the entry it was made from.  The sequence
    returned by [buildForecast] of the two-window variant is in descending
    order of predicted quantity, each item carrying the predicted quantity of
    the entry it was made from; the predicted quantity never decreases when
    the total grows, so an item follows one with a smaller total only when
    both have the same predicted quantity. *)
Theorem forecast_ranking :
  (forall (map : Js.Object ServerJs.Agg.t) (months topN : Z),
      let out := ServerJs.buildForecastFromAggregates map months topN in
      StronglySorted (descending ServerJs.Item.totalQty) out
      /\ Forall (fun i =>
                   exists v, In (ServerJs.Item.variant_id i, v) map
                             /\ ServerJs.Item.totalQty i = ServerJs.Agg.qty v)
           out)
  /\ (forall (map : Js.Object TwoWindow.Agg.t) (months topN : Z),
      let out := TwoWindow.buildForecast map months topN in
      StronglySorted (descending TwoWindow.Item.qty) out
      /\ Forall (fun i =>
                   exists d, In (TwoWindow.Item.variant_id i, d) map
                             /\ TwoWindow.Item.qty i
                                = TwoWindow.predicted months d)
           out)
  /\ (forall (months : Z) (d d' : TwoWindow.Agg.t),
      0 < months ->
      TwoWindow.Agg.totalQty d <= TwoWindow.Agg.totalQty d' ->
      TwoWindow.predicted months d <= TwoWindow.predicted months d').
Proof.
  split; [| split].
  - intros map months topN out. split.
    + apply (sort_slice_descending ServerJs.Item.totalQty).
    + apply Forall_forall. intros i Hi.
      destruct (server_item_origin _ _ _ _ Hi) as (v & Hin & Hi').
      exists v. split; [exact Hin |]. now rewrite Hi'.
  - intros map months topN out. split.
    + apply (sort_slice_descending TwoWindow.Item.qty).
    + apply Forall_forall. intros i Hi.
      destruct (two_window_item_origin _ _ _ _ Hi) as (d & Hin & Hi').
      exists d. split; [exact Hin |]. now rewrite Hi'.
  - intros months d d'. apply predicted_mono.
Qed.

(** C1, as stated, fails on the two-window variant: soap (total 1) and tea
    (total 2) both get the predicted quantity 1 and keep the order of the
    aggregate map, soap first. *)
Lemma forecast_ranking_by_total_fails :
  ~ Sorted (descending (entry_total Sample.may_map))
      (TwoWindow.buildForecast Sample.may_map 6 20).
Proof.
  assert (E : TwoWindow.buildForecast Sample.may_map 6 20
              = [ {| TwoWindow.Item.variant_id := "41000000000001";
                     TwoWindow.Item.qty := 1;
                     TwoWindow.Item.title := "Soap" |};
                  {| TwoWindow.Item.variant_id := "41000000000002";
                     TwoWindow.Item.qty := 1;
                     TwoWindow.Item.title := "Tea" |} ])
    by (vm_compute; reflexivity).
  rewrite E. intros H.
  inversion H as [| a l _ Hhd]; subst.
  inversion Hhd as [| b l' Hab]; subst.
  unfold descending in Hab.
  assert (E1 : entry_total Sample.may_map
                 {| TwoWindow.Item.variant_id := "41000000000001";
                    TwoWindow.Item.qty := 1;
                    TwoWindow.Item.title := "Soap" |} = 1)
    by (vm_compute; reflexivity).
  assert (E2 : entry_total Sample.may_map
                 {| TwoWindow.Item.variant_id := "41000000000002";
                    TwoWindow.Item.qty := 1;
                    TwoWindow.Item.title := "Tea" |} = 2)
    by (vm_compute; reflexivity).
  rewrite E1, E2 in Hab. lia.
Qed.

(** C6 (as amended). For an aggregate map (an object: its keys are distinct)
    and a bound [topN] that is not negative, the sequences of server.js and
    of the two-window variant have at most [topN] items and no identifier
    twice.  The one-window seasonal variant takes no bound: its sequence has
    one item for each enumerated entry of positive predicted quantity, and no
    identifier twice. *)
Theorem forecast_bounded_and_duplicate_free
  (m1 : Js.Object ServerJs.Agg.t) (m2 : Js.Object TwoWindow.Agg.t)
  (m3 : Js.Object Seasonal.Agg.t) (months topN currentMonth : Z) :
  NoDup (Js.keys m1) -> NoDup (Js.keys m2) -> NoDup (Js.keys m3) ->
  0 <= topN ->
  (Z.of_nat (List.length (ServerJs.buildForecastFromAggregates m1 months topN))
   <= topN
   /\ NoDup (map ServerJs.Item.variant_id
               (ServerJs.buildForecastFromAggregates m1 months topN)))
  /\ (Z.of_nat (List.length (TwoWindow.buildForecast m2 months topN)) <= topN
      /\ NoDup (map TwoWindow.Item.variant_id
                  (TwoWindow.buildForecast m2 months topN)))
  /\ (List.length (Seasonal.buildForecast currentMonth m3 months)
      = List.length
          (filter (fun e => 0 <? Seasonal.predicted currentMonth months (snd e))
             (Js.entries m3))
      /\ NoDup (map Seasonal.Item.variant_id
                  (Seasonal.buildForecast currentMonth m3 months))).
Proof.
  intros H1 H2 H3 Hn. repeat split.
  - now apply slice0_length.
  - now apply server_forecast_ids_nodup.
  - now apply slice0_length.
  - now apply two_window_forecast_ids_nodup.
  - unfold Seasonal.buildForecast.
    rewrite (Permutation_length (sort_perm _ _)), seasonal_loop_filter.
    simpl. apply length_map.
  - now apply seasonal_forecast_ids_nodup.
Qed.

Lemma forecast_bounded_and_duplicate_free_witness :
  Z.of_nat
    (List.length
       (ServerJs.buildForecastFromAggregates
          (ServerJs.aggregateLineItems [Sample.may_order]) 6 1)) <= 1
  /\ NoDup
       (map TwoWindow.Item.variant_id
          (TwoWindow.buildForecast Sample.may_map 6 1)).
Proof.
  destruct (forecast_bounded_and_duplicate_free
              (ServerJs.aggregateLineItems [Sample.may_order])
              Sample.may_map
              (Seasonal.aggregateLineItemsWithSeasonality Sample.utcMonth
                 [Sample.may_order])
              6 1 4) as ((Hlen & _) & (_ & Hnd) & _).
  - vm_compute. repeat constructor; simpl; intuition congruence.
  - vm_compute. repeat constructor; simpl; intuition congruence.
  - vm_compute. repeat constructor; simpl; intuition congruence.
  - lia.
  - split; assumption.
Defined.

(** C6, as stated, fails on the one-window seasonal variant: its
    [buildForecast] has no bound to apply, and with a bound of 1 configured
    the forecast of the May order still has two items. *)
Lemma seasonal_forecast_exceeds_bound :
  ~ Z.of_nat
      (List.length
         (Seasonal.buildForecast 4
            (Seasonal.aggregateLineItemsWithSeasonality Sample.utcMonth
               [Sample.may_order]) 6)) <= 1.
Proof. vm_compute. intros H. apply H. reflexivity. Qed.

Lemma forecast_item_owed months (e : string * TwoWindow.Agg.t) :
  0 < months -> TwoWindow.forecast_item months e = owed_item months e.
Proof.
  intros Hm. destruct e as [k d].
  unfold TwoWindow.forecast_item, owed_item, TwoWindow.predicted. simpl.
  now rewrite Math_round_div.
Qed.

(** C10. In the two-window variant every entry of the aggregate map yields
    exactly one item of the array that [slice] then truncates: the items'
    identifiers are the keys of the map, each once.  With a positive window
    length the item of an entry carries the entry's key and title and, as
    quantity, the rounded monthly average of the entry's total when that is
    positive and 1 otherwise, in particular 1 for a total of 0; so every
    quantity is at least 1 and no entry is dropped. *)
Theorem two_window_emits_every_entry
  (map : Js.Object TwoWindow.Agg.t) (months topN : Z) :
  let ranked :=
    Js.sort TwoWindow.by_qty_desc (TwoWindow.forecast_loop map months) in
  TwoWindow.buildForecast map months topN = Js.slice0 ranked topN
  /\ Permutation (List.map TwoWindow.Item.variant_id ranked) (Js.keys map)
  /\ List.length ranked = List.length map
  /\ Forall (fun i => 1 <= TwoWindow.Item.qty i) ranked
  /\ (0 < months ->
      Permutation ranked (List.map (owed_item months) map)
      /\ (forall k d,
             In (k, d) map ->
             Ledger.round_half_up (TwoWindow.Agg.totalQty d) months <= 0 ->
             In {| TwoWindow.Item.variant_id := k;
                   TwoWindow.Item.qty := 1;
                   TwoWindow.Item.title := TwoWindow.Agg.title d |} ranked)
      /\ (forall k d,
             In (k, d) map ->
             TwoWindow.Agg.totalQty d = 0 ->
             In {| TwoWindow.Item.variant_id := k;
                   TwoWindow.Item.qty := 1;
                   TwoWindow.Item.title := TwoWindow.Agg.title d |} ranked))
  /\ (forall data,
         Js.Math_round (Js.div (TwoWindow.Agg.totalQty data) months) <= 0 ->
         TwoWindow.predicted months data = 1)
  /\ (forall ttl,
         TwoWindow.predicted months
           {| TwoWindow.Agg.title := ttl; TwoWindow.Agg.totalQty := 0 |} = 1).
Proof.
  intros ranked.
  assert (Hperm : Permutation ranked
                    (List.map (TwoWindow.forecast_item months) map)).
  { unfold ranked. rewrite sort_perm, forecast_loop_map.
    apply Permutation_map, entries_perm. }
  split; [reflexivity |]. split.
  { rewrite (Permutation_map TwoWindow.Item.variant_id Hperm).
    now rewrite two_window_item_ids. }
  split.
  { rewrite (Permutation_length Hperm). apply length_map. }
  split.
  { eapply Permutation_Forall; [symmetry; exact Hperm |].
    apply Forall_forall. intros i Hi. apply in_map_iff in Hi.
    destruct Hi as ([k d] & <- & _). simpl. apply predicted_at_least_one. }
  split.
  { intros Hm.
    assert (Howed : Permutation ranked (List.map (owed_item months) map)).
    { rewrite Hperm. erewrite map_ext; [reflexivity |].
      intros e. now apply forecast_item_owed. }
    assert (Hlow : forall k d,
               In (k, d) map ->
               Ledger.round_half_up (TwoWindow.Agg.totalQty d) months <= 0 ->
               In {| TwoWindow.Item.variant_id := k;
                     TwoWindow.Item.qty := 1;
                     TwoWindow.Item.title := TwoWindow.Agg.title d |} ranked).
    { intros k d Hin Hr.
      eapply Permutation_in; [symmetry; exact Howed |].
      apply in_map_iff. exists (k, d). split; [| exact Hin].
      unfold owed_item. simpl.
      destruct (Z.ltb_spec 0
                  (Ledger.round_half_up (TwoWindow.Agg.totalQty d) months));
        [lia | reflexivity]. }
    split; [exact Howed |]. split; [exact Hlow |].
    intros k d Hin H0. apply Hlow; [exact Hin |].
    rewrite H0. unfold Ledger.round_half_up.
    replace (2 * 0 + months) with months by lia.
    rewrite Z.div_small by lia. lia. }
  assert (Hlow : forall data,
             Js.Math_round (Js.div (TwoWindow.Agg.totalQty data) months) <= 0 ->
             TwoWindow.predicted months data = 1).
  { intros data Hr. unfold TwoWindow.predicted.
    destruct (Z.ltb_spec 0
                (Js.Math_round (Js.div (TwoWindow.Agg.totalQty data) months)));
      [lia | reflexivity]. }
  split; [exact Hlow |].
  intros ttl. apply Hlow. simpl.
  unfold Js.Math_round, Js.div, Qdiv.
  assert (E : (inject_Z 0 * / inject_Z months + (1 # 2) == 1 # 2)%Q)
    by (change (inject_Z 0) with 0%Q; ring).
  rewrite E. vm_compute. discriminate.
Qed.

Lemma two_window_emits_every_entry_witness :
  In {| TwoWindow.Item.variant_id := "41000000000001";
        TwoWindow.Item.qty := 1;
        TwoWindow.Item.title := "Soap" |}
    (Js.sort TwoWindow.by_qty_desc
       (TwoWindow.forecast_loop
          [("41000000000001",
            {| TwoWindow.Agg.title := "Soap"; TwoWindow.Agg.totalQty := 0 |})]
          6)).
Proof.
  destruct (two_window_emits_every_entry
              [("41000000000001",
                {| TwoWindow.Agg.title := "Soap";
                   TwoWindow.Agg.totalQty := 0 |})] 6 20)
    as (_ & _ & _ & _ & H & _).
  destruct H as (_ & _ & H); [lia |].
  apply (H "41000000000001"
           {| TwoWindow.Agg.title := "Soap"; TwoWindow.Agg.totalQty := 0 |});
    [now left | reflexivity].
Defined.

(** ** The aggregators *)

Lemma fold_left_flat_map {A B C : Type}
  (f : A -> C -> A) (g : B -> list C) (l : list B) (a : A) :
  fold_left (fun a b => fold_left f (g b) a) l a = fold_left f (flat_map g l) a.
Proof.
  revert a. induction l as [| b l IH]; intros a; simpl; [reflexivity |].
  now rewrite fold_left_app, IH.
Qed.

Lemma units_of_app k l1 l2 :
  Contribution.units_of k (l1 ++ l2)
  = Contribution.units_of k l1 + Contribution.units_of k l2.
Proof. induction l1 as [| li l1 IH]; simpl; [reflexivity | lia]. Qed.

Section TwoWindowAggregation.
Import TwoWindow Contribution.

Lemma two_window_add_same map li :
  Js.get (add_line_item map li) (key li)
  = Some {| Agg.title := match Js.get map (key li) with
                         | Some e => Agg.title e
                         | None => Shopify.display li
                         end;
            Agg.totalQty := total_at map (key li) + Shopify.units li |}.
Proof.
  unfold add_line_item, total_at. fold (key li).
  destruct (Js.get map (key li)) as [e |] eqn:E.
  - rewrite E. apply get_set_same.
  - rewrite get_set_same. apply get_set_same.
Qed.

Lemma two_window_add_other map li k :
  k <> key li -> Js.get (add_line_item map li) k = Js.get map k.
Proof.
  intros Hne. unfold add_line_item. fold (key li).
  destruct (Js.get map (key li)) as [e |] eqn:E.
  - rewrite E. apply get_set_other. congruence.
  - rewrite get_set_same. rewrite !get_set_other by congruence. reflexivity.
Qed.

Lemma two_window_add_nodup map li :
  NoDup (Js.keys map) -> NoDup (Js.keys (add_line_item map li)).
Proof.
  intros H. unfold add_line_item.
  destruct (Js.get map (Js.String_ (Shopify.vid li))) as [e |] eqn:E.
  - rewrite E. now apply set_keys_nodup.
  - rewrite get_set_same. now apply set_keys_nodup, set_keys_nodup.
Qed.


Lemma two_window_fold_total lis map k :
  total_at (fold_left add_line_item lis map) k
  = total_at map k + units_of k lis.
Proof.
  revert map. induction lis as [| li lis IH]; intros map; simpl; [lia |].
  rewrite IH. unfold keyed.
  destruct (String.eqb_spec (key li) k) as [<- | Hne].
  - unfold total_at at 1. rewrite two_window_add_same. simpl. lia.
  - unfold total_at. rewrite two_window_add_other by congruence. lia.
Qed.

Lemma two_window_fold_title lis map k :
  title_at (fold_left add_line_item lis map) k
  = match title_at map k with
    | Some t => Some t
    | None => first_title k lis
    end.
Proof.
  revert map. induction lis as [| li lis IH]; intros map; simpl.
  - unfold first_title. simpl. now destruct (title_at map k).
  - rewrite IH. unfold first_title, keyed. simpl.
    destruct (String.eqb_spec (key li) k) as [<- | Hne].
    + unfold title_at. rewrite two_window_add_same. simpl.
      now destruct (Js.get map (key li)).
    + unfold title_at. rewrite two_window_add_other by congruence.
      reflexivity.
Qed.

Variable getMonth : string -> option Z.
Variable currentMonth : Z.

Lemma other_month_in_month o :
  other_month currentMonth (getMonth (Shopify.created_at o))
  = negb (in_month getMonth currentMonth o).
Proof.
  unfold other_month, in_month.
  destruct (getMonth (Shopify.created_at o)); reflexivity.
Qed.

Lemma seasonal_fold_filter seasonal map :
  fold_left (add_seasonal_order getMonth currentMonth) seasonal map
  = fold_left add_line_item
      (all_items (filter (in_month getMonth currentMonth) seasonal)) map.
Proof.
  revert map. induction seasonal as [| o os IH]; intros map; simpl;
    [reflexivity |].
  rewrite IH. unfold add_seasonal_order at 1. rewrite other_month_in_month.
  destruct (in_month getMonth currentMonth o); simpl; [| reflexivity].
  unfold all_items. simpl. now rewrite fold_left_app.
Qed.

(** The two-window aggregate is one pass over the recent line items followed
    by the line items of the seasonal orders of the current month. *)
Lemma two_window_aggregate_fold recent seasonal :
  aggregateLineItemsWithSeasonality getMonth currentMonth recent seasonal
  = fold_left add_line_item
      (all_items recent
         ++ all_items (filter (in_month getMonth currentMonth) seasonal)) [].
Proof.
  unfold aggregateLineItemsWithSeasonality. rewrite seasonal_fold_filter.
  rewrite fold_left_app. f_equal.
  unfold add_recent_order, all_items. apply fold_left_flat_map.
Qed.

Lemma two_window_aggregate_nodup recent seasonal :
  NoDup (Js.keys (aggregateLineItemsWithSeasonality getMonth currentMonth
                    recent seasonal)).
Proof.
  rewrite two_window_aggregate_fold.
  generalize (all_items recent
                ++ all_items (filter (in_month getMonth currentMonth) seasonal)).
  intros lis.
  assert (H : NoDup (Js.keys (@nil (string * Agg.t)))) by constructor.
  revert H. generalize (@nil (string * Agg.t)).
  induction lis as [| li lis IH]; intros map H; simpl; [exact H |].
  apply IH. now apply two_window_add_nodup.
Qed.
End TwoWindowAggregation.

Section ServerJsAggregation.
Import ServerJs Contribution.

(** A line item with neither identifier leaves the map as it is. *)
Lemma server_add_unidentified map li :
  identified li = false -> add_line_item map li = map.
Proof. unfold add_line_item, identified. now intros ->. Qed.

Lemma server_add_same map li :
  identified li = true ->
  Js.get (add_line_item map li) (key li)
  = Some {| Agg.qty := server_total_at map (key li) + Shopify.units li;
            Agg.title := match Js.get map (key li) with
                         | Some e => Agg.title e
                         | None => Shopify.display li
                         end |}.
Proof.
  unfold add_line_item, identified, server_total_at. intros ->. simpl.
  fold (key li).
  destruct (Js.get map (key li)) as [e |] eqn:E.
  - rewrite E. apply get_set_same.
  - rewrite get_set_same. apply get_set_same.
Qed.

Lemma server_add_other map li k :
  k <> key li -> Js.get (add_line_item map li) k = Js.get map k.
Proof.
  intros Hne. unfold add_line_item.
  destruct (Js.truthy (Shopify.vid li)); simpl; [| reflexivity].
  fold (key li).
  destruct (Js.get map (key li)) as [e |] eqn:E.
  - rewrite E. apply get_set_other. congruence.
  - rewrite get_set_same. rewrite !get_set_other by congruence. reflexivity.
Qed.



Lemma server_fold_title lis map k :
  server_title_at (fold_left add_line_item lis map) k
  = match server_title_at map k with
    | Some t => Some t
    | None => first_title k (filter identified lis)
    end.
Proof.
  revert map. induction lis as [| li lis IH]; intros map; simpl.
  - unfold first_title. simpl. now destruct (server_title_at map k).
  - rewrite IH. destruct (identified li) eqn:Hid.
    + unfold first_title, keyed. simpl.
      destruct (String.eqb_spec (key li) k) as [<- | Hne].
      * unfold server_title_at. rewrite server_add_same by assumption. simpl.
        now destruct (Js.get map (key li)).
      * unfold server_title_at. rewrite server_add_other by congruence.
        reflexivity.
    + now rewrite server_add_unidentified.
Qed.

Lemma server_fold_total lis map k :
  server_total_at (fold_left add_line_item lis map) k
  = server_total_at map k + units_of k (filter identified lis).
Proof.
  revert map. induction lis as [| li lis IH]; intros map; simpl; [lia |].
  rewrite IH. destruct (identified li) eqn:Hid.
  - simpl. unfold keyed.
    destruct (String.eqb_spec (key li) k) as [<- | Hne].
    + unfold server_total_at at 1. rewrite server_add_same by assumption.
      simpl. lia.
    + unfold server_total_at. rewrite server_add_other by congruence. lia.
  - now rewrite server_add_unidentified.
Qed.

Lemma server_add_order_fold map o :
  add_order map o = fold_left add_line_item (Shopify.items o) map.
Proof.
  unfold add_order, Shopify.items. now destruct (Shopify.line_items o).
Qed.

Lemma server_aggregate_fold orders :
  aggregateLineItems orders = fold_left add_line_item (all_items orders) [].
Proof.
  unfold aggregateLineItems, all_items.
  rewrite <- fold_left_flat_map.
  generalize (@nil (string * Agg.t)).
  induction orders as [| o os IH]; intros map; simpl; [reflexivity |].
  now rewrite server_add_order_fold, IH.
Qed.

End ServerJsAggregation.

(** C4. In the two-window aggregator the total filed under an identifier is
    the sum of the quantities of the recent line items with that identifier
    and of the line items with that identifier of the seasonal orders created
    in the current month, all in one entry per identifier, which exists
    exactly when one of these line items carries the identifier.  One more
    seasonal order adds the quantities of its line items if its month is the
    current month and nothing otherwise; one more recent order always adds
    them.  The sums are taken over the fields of the orders as the order
    source gives them. *)
Theorem two_window_totals_are_recent_plus_same_month
  (getMonth : string -> option Z) (currentMonth : Z)
  (recent seasonal : list Shopify.Order) (k : string) :
  let agg :=
    TwoWindow.aggregateLineItemsWithSeasonality getMonth currentMonth
      recent seasonal in
  let same_month := Ledger.created_in getMonth currentMonth seasonal in
  total_at agg k
  = Ledger.sum_for k (Ledger.line_items_in recent)
    + Ledger.sum_for k (Ledger.line_items_in same_month)
  /\ (Js.get agg k <> None <->
      exists li,
        In li (Ledger.line_items_in recent ++ Ledger.line_items_in same_month)
        /\ Ledger.key_of li = k)
  /\ NoDup (Js.keys agg)
  /\ (forall o,
         total_at
           (TwoWindow.aggregateLineItemsWithSeasonality getMonth currentMonth
              recent (seasonal ++ [o])) k
         = total_at agg k
           + match getMonth (Shopify.created_at o) with
             | Some m =>
                 if m =? currentMonth
                 then Ledger.sum_for k (Ledger.line_items_of o)
                 else 0
             | None => 0
             end)
  /\ (forall o,
         total_at
           (TwoWindow.aggregateLineItemsWithSeasonality getMonth currentMonth
              (recent ++ [o]) seasonal) k
         = total_at agg k + Ledger.sum_for k (Ledger.line_items_of o)).
Proof.
  intros agg same_month. subst same_month.
  assert (F : forall r s,
             total_at
               (TwoWindow.aggregateLineItemsWithSeasonality getMonth
                  currentMonth r s) k
             = Ledger.sum_for k (Ledger.line_items_in r)
               + Ledger.sum_for k
                   (Ledger.line_items_in
                      (Ledger.created_in getMonth currentMonth s))).
  { intros r s.
    rewrite two_window_aggregate_fold, two_window_fold_total, units_of_app.
    rewrite (ledger_created_in getMonth currentMonth s).
    rewrite (ledger_sum k (Ledger.line_items_in r)).
    rewrite (ledger_sum k
               (Ledger.line_items_in
                  (filter (Contribution.in_month getMonth currentMonth) s))).
    rewrite (ledger_line_items r).
    rewrite (ledger_line_items
               (filter (Contribution.in_month getMonth currentMonth) s)).
    reflexivity. }
  assert (A : forall l o,
             Ledger.line_items_in (l ++ [o])
             = Ledger.line_items_in l ++ Ledger.line_items_of o).
  { intros l o. induction l as [| x l IH]; simpl.
    - now rewrite app_nil_r.
    - now rewrite IH, app_assoc. }
  assert (S : forall l l',
             Ledger.sum_for k (l ++ l')
             = Ledger.sum_for k l + Ledger.sum_for k l').
  { intros l l'.
    rewrite (ledger_sum k (l ++ l')), (ledger_sum k l), (ledger_sum k l').
    apply units_of_app. }
  pose proof (two_window_aggregate_fold getMonth currentMonth recent seasonal)
    as Hfold.
  fold agg in Hfold.
  pose proof (F recent seasonal) as F0. fold agg in F0.
  split; [apply F |]. split; [| split; [| split]].
  - rewrite (ledger_created_in getMonth currentMonth seasonal).
    rewrite (ledger_line_items recent).
    rewrite (ledger_line_items
               (filter (Contribution.in_month getMonth currentMonth)
                  seasonal)).
    set (lis := Contribution.all_items recent
                  ++ Contribution.all_items
                       (filter (Contribution.in_month getMonth currentMonth)
                          seasonal)) in *.
    pose proof (two_window_fold_title lis [] k) as Ht.
    rewrite <- Hfold in Ht.
    unfold title_at in Ht. simpl in Ht.
    unfold Contribution.first_title in Ht.
    split.
    + intros Hne.
      destruct (find (Contribution.keyed k) lis) as [li |] eqn:Hfind.
      * apply find_some in Hfind. destruct Hfind as [Hin Hk].
        exists li. split; [exact Hin |].
        rewrite ledger_key. now apply String.eqb_eq.
      * simpl in Ht. destruct (Js.get agg k); [discriminate | congruence].
    + intros (li & Hin & Hk) Hnone.
      rewrite Hnone in Ht. simpl in Ht.
      destruct (find (Contribution.keyed k) lis) as [li' |] eqn:Hfind;
        [discriminate |].
      eapply find_none in Hfind; [| exact Hin].
      unfold Contribution.keyed in Hfind.
      rewrite <- ledger_key, Hk, String.eqb_refl in Hfind.
      discriminate.
  - apply two_window_aggregate_nodup.
  - intros o. rewrite F0, F.
    assert (C : Ledger.created_in getMonth currentMonth (seasonal ++ [o])
                = Ledger.created_in getMonth currentMonth seasonal
                  ++ Ledger.created_in getMonth currentMonth [o]).
    { rewrite (ledger_created_in getMonth currentMonth (seasonal ++ [o])).
      rewrite (ledger_created_in getMonth currentMonth seasonal).
      rewrite (ledger_created_in getMonth currentMonth [o]).
      apply filter_app. }
    rewrite C. simpl.
    destruct (getMonth (Shopify.created_at o)) as [m |].
    + destruct (m =? currentMonth).
      * rewrite A, S. lia.
      * rewrite app_nil_r. lia.
    + rewrite app_nil_r. lia.
  - intros o. rewrite F0, F, A, S. lia.
Qed.

(** In the two-window variant a line item with neither identifier adds its
    quantity under the key [undefined], whatever the map. *)
Lemma two_window_files_unidentified map li :
  Shopify.vid li = Js.Undefined ->
  total_at (TwoWindow.add_line_item map li) "undefined"
  = total_at map "undefined" + Shopify.units li.
Proof.
  intros H.
  assert (K : Contribution.key li = "undefined")
    by (unfold Contribution.key; now rewrite H).
  unfold total_at at 1. rewrite <- K, two_window_add_same. reflexivity.
Qed.

(** C8. In the two-window variant a line item with neither identifier is not
    skipped: it is filed under the key [undefined] with its quantity, and
    reaches the cart link; server.js skips the same line item. *)
Theorem anonymous_line_item_is_filed_under_undefined
  (getMonth : string -> option Z) (currentMonth : Z) :
  let agg :=
    TwoWindow.aggregateLineItemsWithSeasonality getMonth currentMonth
      [Sample.anonymous_order] [] in
  agg = [("undefined",
          {| TwoWindow.Agg.title := "Gift wrap";
             TwoWindow.Agg.totalQty := 2 |})]
  /\ TwoWindow.buildCartUrl (TwoWindow.buildForecast agg 6 TwoWindow.TOP_ITEMS)
     = "/cart/undefined:1"
  /\ ServerJs.aggregateLineItems [Sample.anonymous_order] = [].
Proof. repeat split. Qed.



Section SeasonalAggregation.
Import Seasonal Contribution.

Lemma seasonal_add_same month map li :
  Js.get (add_line_item month map li) (key li)
  = Some {| Agg.title := Agg.title (seasonal_entry map li);
            Agg.totalQty :=
              Agg.totalQty (seasonal_entry map li) + Shopify.units li;
            Agg.monthlyQty :=
              Js.set (Agg.monthlyQty (seasonal_entry map li))
                (month_key month)
                (Js.or_zero (Js.get (Agg.monthlyQty (seasonal_entry map li))
                               (month_key month))
                 + Shopify.units li) |}.
Proof.
  unfold add_line_item, seasonal_entry. fold (key li).
  destruct (Js.get map (key li)) as [e |] eqn:E.
  - rewrite E. apply get_set_same.
  - rewrite get_set_same. apply get_set_same.
Qed.

Lemma seasonal_add_other month map li k :
  k <> key li -> Js.get (add_line_item month map li) k = Js.get map k.
Proof.
  intros Hne. unfold add_line_item. fold (key li).
  destruct (Js.get map (key li)) as [e |] eqn:E.
  - rewrite E. apply get_set_other. congruence.
  - rewrite get_set_same. rewrite !get_set_other by congruence. reflexivity.
Qed.

Lemma seasonal_add_nodup month map li :
  NoDup (Js.keys map) -> NoDup (Js.keys (add_line_item month map li)).
Proof.
  intros H. unfold add_line_item.
  destruct (Js.get map (Js.String_ (Shopify.vid li))) as [e |] eqn:E.
  - rewrite E. now apply set_keys_nodup.
  - rewrite get_set_same. now apply set_keys_nodup, set_keys_nodup.
Qed.

Lemma seasonal_add_within month map li :
  0 <= Shopify.units li ->
  monthly_within_total map ->
  monthly_within_total (add_line_item month map li).
Proof.
  intros Hu Hinv k data mk Hget.
  destruct (string_dec k (key li)) as [-> | Hne].
  - rewrite seasonal_add_same in Hget. injection Hget as <-. simpl.
    assert (Hold : forall mk',
               0 <= Js.or_zero
                      (Js.get (Agg.monthlyQty (seasonal_entry map li)) mk')
               <= Agg.totalQty (seasonal_entry map li)).
    { intros mk'. unfold seasonal_entry.
      destruct (Js.get map (key li)) as [e |] eqn:E.
      - eapply Hinv; eauto.
      - simpl. lia. }
    destruct (string_dec (month_key month) mk) as [<- | Hmk].
    + rewrite get_set_same. simpl. specialize (Hold (month_key month)). lia.
    + rewrite get_set_other by assumption. specialize (Hold mk). lia.
  - rewrite seasonal_add_other in Hget by assumption. eapply Hinv; eauto.
Qed.

Variable getMonth : string -> option Z.

Lemma seasonal_fold_within month lis map :
  Forall (fun li => 0 <= Shopify.units li) lis ->
  monthly_within_total map ->
  monthly_within_total (fold_left (add_line_item month) lis map).
Proof.
  intros H. revert map. induction H as [| li lis Hli _ IH]; intros map Hinv;
    simpl; [exact Hinv |].
  apply IH. now apply seasonal_add_within.
Qed.

Lemma seasonal_aggregate_within orders :
  Forall (fun li => 0 <= Shopify.units li) (all_items orders) ->
  monthly_within_total (aggregateLineItemsWithSeasonality getMonth orders).
Proof.
  unfold aggregateLineItemsWithSeasonality.
  assert (H0 : monthly_within_total []) by (intros k data mk; discriminate).
  revert H0. generalize (@nil (string * Agg.t)).
  induction orders as [| o os IH]; intros map Hinv Hall; simpl; [exact Hinv |].
  unfold all_items in Hall. simpl in Hall. apply Forall_app in Hall.
  destruct Hall as [Ho Hos].
  apply IH; [| exact Hos].
  unfold add_order. now apply seasonal_fold_within.
Qed.

Lemma seasonal_aggregate_nodup orders :
  NoDup (Js.keys (aggregateLineItemsWithSeasonality getMonth orders)).
Proof.
  unfold aggregateLineItemsWithSeasonality.
  assert (H : NoDup (Js.keys (@nil (string * Agg.t)))) by constructor.
  revert H. generalize (@nil (string * Agg.t)).
  induction orders as [| o os IH]; intros map H; simpl; [exact H |].
  apply IH. unfold add_order.
  generalize (getMonth (Shopify.created_at o)). intros month.
  revert map H. induction (Shopify.items o) as [| li lis IHl]; intros map H;
    simpl; [exact H |].
  apply IHl. now apply seasonal_add_nodup.
Qed.

(** With nothing bought in total, nothing is predicted. *)
Lemma seasonal_predicted_zero currentMonth months data :
  0 < months ->
  Agg.totalQty data <= 0 ->
  (forall mk, 0 <= Js.or_zero (Js.get (Agg.monthlyQty data) mk)
              <= Agg.totalQty data) ->
  predicted currentMonth months data <= 0.
Proof.
  intros Hm Ht Hmk. unfold predicted.
  rewrite div_positive by assumption.
  destruct (Z.ltb_spec 0 (Agg.totalQty data)) as [Hpos | _]; [lia |].
  simpl. specialize (Hmk (Js.ToString currentMonth)). lia.
Qed.
End SeasonalAggregation.

(** ** Emitted quantities *)

Lemma server_entry_quantity months k v :
  0 < months ->
  let i := ServerJs.forecast_entry months (k, v) in
  ServerJs.Item.qty i <= 50
  /\ (0 < ServerJs.Item.totalQty i <-> 1 <= ServerJs.Item.qty i).
Proof.
  intros Hm. simpl.
  set (r := Js.Math_round (Js.div (ServerJs.Agg.qty v) months)).
  split; [lia |].
  destruct (Z.ltb_spec 0 (ServerJs.Agg.qty v)) as [Hpos | Hle]; simpl.
  - pose proof (Math_round_div_nonneg (ServerJs.Agg.qty v) months Hm) as Hr.
    fold r in Hr. destruct (Z.ltb_spec r 1); lia.
  - pose proof (Math_round_div_nonpos (ServerJs.Agg.qty v) months Hm Hle) as Hr.
    fold r in Hr. lia.
Qed.

Lemma seasonal_predicted_owed currentMonth months data :
  0 < months ->
  Seasonal.predicted currentMonth months data
  = seasonal_owed_quantity currentMonth months data.
Proof.
  intros Hm. unfold Seasonal.predicted, seasonal_owed_quantity.
  rewrite div_positive by assumption. rewrite negb_involutive.
  rewrite Math_round_div by assumption. reflexivity.
Qed.

Lemma covering_slice {A : Type} (l : list A) end_ :
  Z.of_nat (List.length l) <= end_ -> Js.slice0 l end_ = l.
Proof.
  intros H. unfold Js.slice0.
  destruct (Z.ltb_spec end_ 0); [lia |].
  apply firstn_all2. lia.
Qed.

(** C3 (as amended). With a positive window length and a map whose keys are
    distinct: every item of server.js carries as [totalQty] the total of the
    entry under its identifier and has a quantity of at most 50, which is at
    least 1 exactly when that total is positive; no entry is excluded there:
    with a bound that covers the map every entry has its item, of a quantity
    that is not positive when the total is not.  Every item of the one-window
    seasonal variant has a positive quantity, the rounded average of its
    entry's total (when positive) plus what was bought in the current month,
    and an entry has an item exactly when that quantity is positive; when no
    line item has a negative quantity, an entry of its aggregate with a total
    that is not positive is excluded. *)
Theorem emitted_quantities (months : Z) :
  0 < months ->
  (forall (map : Js.Object ServerJs.Agg.t) (topN : Z),
      NoDup (Js.keys map) ->
      let out := ServerJs.buildForecastFromAggregates map months topN in
      Forall (fun i =>
                exists v,
                  Js.get map (ServerJs.Item.variant_id i) = Some v
                  /\ ServerJs.Item.totalQty i = ServerJs.Agg.qty v
                  /\ ServerJs.Item.qty i <= 50
                  /\ (0 < ServerJs.Agg.qty v <-> 1 <= ServerJs.Item.qty i)
                  /\ (ServerJs.Agg.qty v <= 0 -> ServerJs.Item.qty i <= 0))
        out
      /\ (Z.of_nat (List.length map) <= topN ->
          Permutation (List.map ServerJs.Item.variant_id out) (Js.keys map)
          /\ forall k v,
               Js.get map k = Some v ->
               exists i,
                 In i out
                 /\ ServerJs.Item.variant_id i = k
                 /\ ServerJs.Item.totalQty i = ServerJs.Agg.qty v
                 /\ (ServerJs.Agg.qty v <= 0 -> ServerJs.Item.qty i <= 0)))
  /\ (forall (currentMonth : Z) (map : Js.Object Seasonal.Agg.t),
         NoDup (Js.keys map) ->
         let out := Seasonal.buildForecast currentMonth map months in
         Forall (fun i =>
                   0 < Seasonal.Item.qty i
                   /\ exists data,
                       Js.get map (Seasonal.Item.variant_id i) = Some data
                       /\ Seasonal.Item.qty i
                          = seasonal_owed_quantity currentMonth months data)
           out
         /\ forall k data,
              Js.get map k = Some data ->
              (In k (List.map Seasonal.Item.variant_id out)
               <-> 0 < seasonal_owed_quantity currentMonth months data))
  /\ (forall (getMonth : string -> option Z) (currentMonth : Z)
             (orders : list Shopify.Order) (k : string)
             (data : Seasonal.Agg.t),
         let agg := Seasonal.aggregateLineItemsWithSeasonality getMonth orders in
         Forall (fun li => 0 <= Ledger.quantity_of li)
           (Ledger.line_items_in orders) ->
         Js.get agg k = Some data ->
         Seasonal.Agg.totalQty data <= 0 ->
         ~ In k (List.map Seasonal.Item.variant_id
                   (Seasonal.buildForecast currentMonth agg months))).
Proof.
  intros Hm. split; [| split].
  - intros map topN Hnd out. split.
    + apply Forall_forall. intros i Hi.
      destruct (server_item_origin _ _ _ _ Hi) as (v & Hin & Ei).
      exists v. split; [now apply in_get_some |].
      destruct (server_entry_quantity months (ServerJs.Item.variant_id i) v Hm)
        as [H50 Hiff].
      rewrite <- Ei in H50, Hiff.
      assert (Et : ServerJs.Item.totalQty i = ServerJs.Agg.qty v)
        by now rewrite Ei.
      rewrite Et in Hiff.
      split; [exact Et |]. split; [exact H50 |]. split; [exact Hiff |].
      intros Hle. destruct Hiff as [_ Hback].
      destruct (Z.le_gt_cases (ServerJs.Item.qty i) 0) as [H0 | H0];
        [exact H0 |].
      assert (0 < ServerJs.Agg.qty v) by (apply Hback; lia). lia.
    + intros Hlen.
      assert (Eout : out
                     = Js.sort ServerJs.by_totalQty_desc
                         (List.map (ServerJs.forecast_entry months)
                            (Js.entries map))).
      { unfold out, ServerJs.buildForecastFromAggregates.
        apply covering_slice.
        rewrite (Permutation_length (sort_perm _ _)), length_map.
        rewrite (Permutation_length (entries_perm map)). exact Hlen. }
      split.
      * rewrite Eout, sort_perm, server_item_ids.
        apply Permutation_map, entries_perm.
      * intros k v Hget. apply get_some_in in Hget.
        exists (ServerJs.forecast_entry months (k, v)).
        split.
        { rewrite Eout.
          eapply Permutation_in; [symmetry; apply sort_perm |].
          apply in_map.
          eapply Permutation_in; [symmetry; apply entries_perm | exact Hget]. }
        split; [reflexivity |]. split; [reflexivity |].
        intros Hle.
        destruct (server_entry_quantity months k v Hm) as [_ [_ Hback]].
        destruct (Z.le_gt_cases
                    (ServerJs.Item.qty (ServerJs.forecast_entry months (k, v)))
                    0) as [H0 | H0]; [exact H0 |].
        assert (0 < ServerJs.Item.totalQty
                      (ServerJs.forecast_entry months (k, v)))
          by (apply Hback; lia).
        simpl in *. lia.
  - intros currentMonth map Hnd out. split.
    + apply Forall_forall. intros i Hi.
      destruct (seasonal_item_origin _ _ _ _ Hi) as (data & Hin & Hpos & Heq).
      split; [rewrite Heq; simpl; exact Hpos |].
      exists data. split; [now apply in_get_some |].
      rewrite Heq. simpl. now apply seasonal_predicted_owed.
    + intros k data Hget. split.
      * intros Hin. apply in_map_iff in Hin. destruct Hin as (i & <- & Hi).
        destruct (seasonal_item_origin _ _ _ _ Hi) as (data' & Hin' & Hpos & _).
        apply in_get_some in Hin'; [| exact Hnd].
        rewrite Hget in Hin'. injection Hin' as <-.
        now rewrite <- seasonal_predicted_owed.
      * intros Hpos. rewrite <- seasonal_predicted_owed in Hpos by assumption.
        apply get_some_in in Hget.
        apply in_map_iff.
        exists (Seasonal.forecast_item currentMonth months (k, data)).
        split; [reflexivity |].
        unfold out, Seasonal.buildForecast.
        eapply Permutation_in; [symmetry; apply sort_perm |].
        rewrite seasonal_loop_filter. apply in_or_app. right.
        apply in_map, filter_In. split.
        { eapply Permutation_in; [symmetry; apply entries_perm | exact Hget]. }
        { simpl. now apply Z.ltb_lt. }
  - intros getMonth currentMonth orders k data agg Hall Hget Htotal Hin.
    assert (Hall' : Forall (fun li => 0 <= Shopify.units li)
                      (Contribution.all_items orders)).
    { rewrite <- (ledger_line_items orders).
      eapply Forall_impl; [| exact Hall].
      intros li Hli. now rewrite <- ledger_quantity. }
    apply in_map_iff in Hin. destruct Hin as (i & <- & Hi).
    destruct (seasonal_item_origin _ _ _ _ Hi) as (data' & Hin' & Hpos & _).
    apply in_get_some in Hin'; [| apply seasonal_aggregate_nodup].
    rewrite Hget in Hin'. injection Hin' as <-.
    pose proof (seasonal_aggregate_within getMonth orders Hall') as Hinv.
    assert (predicted_le : Seasonal.predicted currentMonth months data <= 0).
    { apply seasonal_predicted_zero; [exact Hm | exact Htotal |].
      intros mk. eapply Hinv. exact Hget. }
    lia.
Qed.

Lemma emitted_quantities_witness :
  Forall (fun i =>
            exists v,
              Js.get
                (ServerJs.aggregateLineItems
                   [Sample.may_order; Sample.unquantified_order])
                (ServerJs.Item.variant_id i) = Some v
              /\ ServerJs.Item.totalQty i = ServerJs.Agg.qty v
              /\ ServerJs.Item.qty i <= 50
              /\ (0 < ServerJs.Agg.qty v <-> 1 <= ServerJs.Item.qty i)
              /\ (ServerJs.Agg.qty v <= 0 -> ServerJs.Item.qty i <= 0))
    (ServerJs.buildForecastFromAggregates
       (ServerJs.aggregateLineItems
          [Sample.may_order; Sample.unquantified_order]) 6 12).
Proof.
  destruct (emitted_quantities 6) as (H & _); [lia |].
  apply (H (ServerJs.aggregateLineItems
              [Sample.may_order; Sample.unquantified_order]) 12).
  vm_compute. repeat constructor; simpl; intuition congruence.
Defined.

(** C3, as stated, fails on server.js: a line item without a quantity leaves
    an entry with total 0, which is emitted with quantity 0. *)
Lemma zero_total_entry_is_emitted :
  ServerJs.buildForecastFromAggregates
    (ServerJs.aggregateLineItems [Sample.unquantified_order]) 6 12
  = [ {| ServerJs.Item.variant_id := "41000000000001";
         ServerJs.Item.qty := 0;
         ServerJs.Item.title := "Soap";
         ServerJs.Item.totalQty := 0 |} ]
  /\ ~ Forall (fun i => 0 < ServerJs.Item.qty i)
         (ServerJs.buildForecastFromAggregates
            (ServerJs.aggregateLineItems [Sample.unquantified_order]) 6 12).
Proof.
  assert (E : ServerJs.buildForecastFromAggregates
                (ServerJs.aggregateLineItems [Sample.unquantified_order]) 6 12
              = [ {| ServerJs.Item.variant_id := "41000000000001";
                     ServerJs.Item.qty := 0;
                     ServerJs.Item.title := "Soap";
                     ServerJs.Item.totalQty := 0 |} ])
    by (vm_compute; reflexivity).
  rewrite E. split; [reflexivity |].
  intros H. inversion H as [| i l Hq _]; subst. simpl in Hq. lia.
Qed.

(** ** The cart link *)

Section CartPathFacts.
Import CartPath.
#[local] Arguments Ascii.eqb : simpl never.

(** Replaces the code of a literal character in [H] by its value. *)
Ltac char_code H :=
  repeat match type of H with
         | context [nat_of_ascii ?a] =>
             let v := eval vm_compute in (nat_of_ascii a) in
             change (nat_of_ascii a) with v in H
         end.

Lemma has_char_app c a b :
  has_char c (a ++ b)%string = has_char c a || has_char c b.
Proof.
  induction a as [| x a IH]; simpl; [reflexivity |].
  now rewrite IH, orb_assoc.
Qed.

Lemma split_nonempty sep s : split sep s <> [].
Proof.
  destruct s as [| c s]; simpl; [discriminate |].
  destruct (Ascii.eqb c sep); [discriminate |].
  destruct (split sep s); discriminate.
Qed.

Lemma split_free sep s : has_char sep s = false -> split sep s = [s].
Proof.
  induction s as [| c s IH]; simpl; [reflexivity |].
  intros H. apply orb_false_iff in H. destruct H as [Hc Hs].
  rewrite Hc, IH by assumption. reflexivity.
Qed.

Lemma split_app sep a b :
  has_char sep a = false ->
  split sep (a ++ String sep b)%string = a :: split sep b.
Proof.
  induction a as [| c a IH]; simpl.
  - intros _. now rewrite Ascii.eqb_refl.
  - intros H. apply orb_false_iff in H. destruct H as [Hc Ha].
    rewrite Hc, IH by assumption. reflexivity.
Qed.

(** A decimal numeral holds digits only. *)
Lemma digits_free c d :
  (nat_of_ascii c < 48 \/ 57 < nat_of_ascii c)%nat ->
  has_char c (NilEmpty.string_of_uint d) = false.
Proof.
  intros Hc. induction d as [| d IH | d IH | d IH | d IH | d IH | d IH
                            | d IH | d IH | d IH | d IH]; simpl;
    [reflexivity | ..]; rewrite IH, orb_false_r;
    apply Ascii.eqb_neq; intros <-; char_code Hc; lia.
Qed.

(** A printed integer holds neither separator. *)
Lemma ToString_free (c : ascii) (z : Z) :
  (nat_of_ascii c < 45 \/ 57 < nat_of_ascii c)%nat ->
  has_char c (Js.ToString z) = false.
Proof.
  intros Hc.
  assert (Hdig : forall d, has_char c (NilZero.string_of_uint d) = false).
  { intros d. unfold NilZero.string_of_uint.
    assert (H0 : has_char c "0" = false).
    { simpl. rewrite orb_false_r. apply Ascii.eqb_neq. intros <-.
      char_code Hc. lia. }
    destruct d; try exact H0; apply digits_free; lia. }
  unfold Js.ToString, NilZero.string_of_int.
  destruct (Z.to_int z) as [d | d]; [apply Hdig |].
  simpl. rewrite Hdig, orb_false_r.
  apply Ascii.eqb_neq. intros <-. char_code Hc. lia.
Qed.

Lemma to_int_proper z :
  Z.to_int z <> Decimal.Pos Decimal.Nil /\ Z.to_int z <> Decimal.Neg Decimal.Nil.
Proof.
  destruct z as [| p | p]; simpl; split; try discriminate;
    intros [= H]; now apply (DecimalPos.Unsigned.to_uint_nonnil p).
Qed.

(** Reading a printed integer gives the integer back. *)
Lemma read_ToString z :
  option_map Z.of_int (NilZero.int_of_string (Js.ToString z)) = Some z.
Proof.
  unfold Js.ToString. destruct (to_int_proper z) as [Hp Hn].
  rewrite NilZero.isi by assumption. simpl. now rewrite DecimalZ.of_to.
Qed.

Lemma parse_token_token p :
  has_char ":" (fst p) = false -> parse_token (token p) = Some p.
Proof.
  destruct p as [id q]. simpl. intros Hid.
  unfold parse_token, token. simpl.
  rewrite split_app by assumption.
  rewrite split_free by (apply ToString_free; vm_compute; lia).
  pose proof (read_ToString q) as Hq.
  destruct (NilZero.int_of_string (Js.ToString q)); simpl in Hq;
    [| discriminate].
  now injection Hq as ->.
Qed.

Lemma token_comma_free p :
  has_char "," (fst p) = false -> has_char "," (token p) = false.
Proof.
  intros H. unfold token. rewrite !has_char_app, H. simpl.
  apply ToString_free. vm_compute. lia.
Qed.

Lemma split_join toks :
  toks <> [] ->
  Forall (fun t => has_char "," t = false) toks ->
  split "," (Js.join "," toks) = toks.
Proof.
  intros Hne H. induction H as [| t toks Ht Hall IH]; [contradiction |].
  destruct toks as [| t' toks'].
  - simpl. now apply split_free.
  - change (Js.join "," (t :: t' :: toks'))
      with (t ++ String "," (Js.join "," (t' :: toks')))%string.
    rewrite split_app by assumption. rewrite IH by discriminate. reflexivity.
Qed.

Lemma safe_free id :
  safe id = true -> has_char "," id = false /\ has_char ":" id = false.
Proof.
  unfold safe. intros H. apply andb_true_iff in H.
  destruct H as [H1 H2]. apply negb_true_iff in H1, H2. now split.
Qed.

Lemma parse_tokens_tokens ps :
  Forall (fun p => safe (fst p) = true) ps ->
  parse_tokens (List.map token ps) = Some ps.
Proof.
  induction 1 as [| p ps Hp _ IH]; simpl; [reflexivity |].
  apply safe_free in Hp. destruct Hp as [_ Hp].
  now rewrite parse_token_token, IH.
Qed.

(** Reading the path of a non-empty sequence of safe pairs gives the pairs
    back, in order. *)
Lemma parse_render ps :
  ps <> [] ->
  Forall (fun p => safe (fst p) = true) ps ->
  parse ("/cart/" ++ render ps)%string = Some ps.
Proof.
  intros Hne Hsafe. unfold parse. simpl. unfold render.
  rewrite split_join.
  - now apply parse_tokens_tokens.
  - destruct ps; [contradiction | discriminate].
  - apply Forall_map. eapply Forall_impl; [| exact Hsafe].
    intros p Hp. apply token_comma_free. now apply safe_free in Hp.
Qed.
End CartPathFacts.

Lemma server_cart_url items :
  ServerJs.buildCartUrl items
  = match items with
    | [] => "/cart"
    | _ :: _ => ("/cart/" ++ CartPath.render (List.map server_pair items))%string
    end.
Proof.
  destruct items as [| i items]; [reflexivity |].
  unfold ServerJs.buildCartUrl, CartPath.render. simpl List.length.
  cbv iota beta. rewrite map_map. reflexivity.
Qed.

Lemma two_window_cart_url items :
  TwoWindow.buildCartUrl items
  = match items with
    | [] => "/cart"
    | _ :: _ =>
        ("/cart/" ++ CartPath.render (List.map two_window_pair items))%string
    end.
Proof.
  destruct items as [| i items]; [reflexivity |].
  unfold TwoWindow.buildCartUrl, CartPath.render. simpl List.length.
  cbv iota beta. rewrite map_map. reflexivity.
Qed.

(** *** Identifiers the aggregators file under are safe path tokens *)

Lemma String_safe (v : Js.Id) : CartPath.safe (Js.String_ v) = true.
Proof.
  destruct v as [| | n]; [reflexivity | reflexivity |].
  unfold CartPath.safe. simpl.
  rewrite !ToString_free by (vm_compute; lia). reflexivity.
Qed.

Lemma keys_set_cases {V : Type} (o : Js.Object V) k v k' :
  In k' (Js.keys (Js.set o k v)) -> k' = k \/ In k' (Js.keys o).
Proof.
  destruct (in_dec string_dec k (Js.keys o)) as [Hin | Hout].
  - rewrite keys_set_present by assumption. auto.
  - rewrite keys_set_absent by assumption. intros H.
    apply in_app_or in H. destruct H as [H | [<- | []]]; auto.
Qed.

Lemma set_safe_keys {V : Type} (o : Js.Object V) (id : Js.Id) v :
  safe_keys o -> safe_keys (Js.set o (Js.String_ id) v).
Proof.
  unfold safe_keys. rewrite !Forall_forall. intros H k Hk.
  apply keys_set_cases in Hk. destruct Hk as [-> | Hk];
    [apply String_safe | now apply H].
Qed.

Lemma server_add_safe map li :
  safe_keys map -> safe_keys (ServerJs.add_line_item map li).
Proof.
  intros H. unfold ServerJs.add_line_item.
  destruct (Js.truthy (Shopify.vid li)); simpl; [| exact H].
  destruct (Js.get map (Js.String_ (Shopify.vid li))) as [e |] eqn:E.
  - rewrite E. now apply set_safe_keys.
  - rewrite get_set_same. now apply set_safe_keys, set_safe_keys.
Qed.

Lemma two_window_add_safe map li :
  safe_keys map -> safe_keys (TwoWindow.add_line_item map li).
Proof.
  intros H. unfold TwoWindow.add_line_item.
  destruct (Js.get map (Js.String_ (Shopify.vid li))) as [e |] eqn:E.
  - rewrite E. now apply set_safe_keys.
  - rewrite get_set_same. now apply set_safe_keys, set_safe_keys.
Qed.

Lemma fold_safe_keys {V : Type}
  (add : Js.Object V -> Shopify.LineItem -> Js.Object V) lis map :
  (forall m li, safe_keys m -> safe_keys (add m li)) ->
  safe_keys map -> safe_keys (fold_left add lis map).
Proof.
  intros Hadd. revert map.
  induction lis as [| li lis IH]; intros map H; simpl; auto.
Qed.

(** The path of a server.js forecast reads back as the forecast, whatever
    the orders. *)
Lemma server_forecast_reads_back orders months topN :
  let items :=
    ServerJs.buildForecastFromAggregates
      (ServerJs.aggregateLineItems orders) months topN in
  CartPath.parse (ServerJs.buildCartUrl items)
  = Some (List.map server_pair items).
Proof.
  intros items. rewrite server_cart_url.
  destruct items as [| i l] eqn:E; [reflexivity |]. rewrite <- E.
  apply parse_render; [rewrite E; discriminate |].
  apply Forall_map, Forall_forall. intros j Hj. simpl.
  destruct (server_item_origin _ _ _ _ Hj) as (v & Hin & _).
  assert (Hsafe : safe_keys (ServerJs.aggregateLineItems orders)).
  { rewrite server_aggregate_fold.
    apply fold_safe_keys; [apply server_add_safe | constructor]. }
  unfold safe_keys in Hsafe. rewrite Forall_forall in Hsafe.
  apply Hsafe. change (ServerJs.Item.variant_id j)
    with (fst (ServerJs.Item.variant_id j, v)). now apply in_map.
Qed.

(** The same for the two-window variant. *)
Lemma two_window_forecast_reads_back
  getMonth currentMonth recent seasonal months topN :
  let items :=
    TwoWindow.buildForecast
      (TwoWindow.aggregateLineItemsWithSeasonality getMonth currentMonth
         recent seasonal) months topN in
  CartPath.parse (TwoWindow.buildCartUrl items)
  = Some (List.map two_window_pair items).
Proof.
  intros items. rewrite two_window_cart_url.
  destruct items as [| i l] eqn:E; [reflexivity |]. rewrite <- E.
  apply parse_render; [rewrite E; discriminate |].
  apply Forall_map, Forall_forall. intros j Hj. simpl.
  destruct (two_window_item_origin _ _ _ _ Hj) as (d & Hin & _).
  assert (Hsafe : safe_keys
                    (TwoWindow.aggregateLineItemsWithSeasonality getMonth
                       currentMonth recent seasonal)).
  { rewrite two_window_aggregate_fold.
    apply fold_safe_keys; [apply two_window_add_safe | constructor]. }
  unfold safe_keys in Hsafe. rewrite Forall_forall in Hsafe.
  apply Hsafe. change (TwoWindow.Item.variant_id j)
    with (fst (TwoWindow.Item.variant_id j, d)). now apply in_map.
Qed.

(** C5. [buildCartUrl] of the empty sequence is [/cart]; of a non-empty
    sequence it is [/cart/] followed by the tokens [id:qty] joined by commas,
    in sequence order; and for identifiers that are safe path tokens (free of
    [,] and [:]) splitting the path on [,] and then on [:] gives back the
    (identifier, quantity) pairs of the sequence, in the same order.  This
    holds for server.js and for the two-window variant. *)
Theorem cart_url_round_trip
  (items : list ServerJs.Item.t) (items' : list TwoWindow.Item.t) :
  Forall (fun i => CartPath.safe (ServerJs.Item.variant_id i) = true) items ->
  Forall (fun i => CartPath.safe (TwoWindow.Item.variant_id i) = true) items' ->
  (ServerJs.buildCartUrl [] = "/cart" /\ TwoWindow.buildCartUrl [] = "/cart")
  /\ (items <> [] ->
      ServerJs.buildCartUrl items
      = ("/cart/"
           ++ Js.join ","
                (List.map
                   (fun i => ServerJs.Item.variant_id i ++ ":"
                               ++ Js.ToString (ServerJs.Item.qty i))
                   items))%string)
  /\ (items' <> [] ->
      TwoWindow.buildCartUrl items'
      = ("/cart/"
           ++ Js.join ","
                (List.map
                   (fun i => TwoWindow.Item.variant_id i ++ ":"
                               ++ Js.ToString (TwoWindow.Item.qty i))
                   items'))%string)
  /\ CartPath.parse (ServerJs.buildCartUrl items)
     = Some (List.map server_pair items)
  /\ CartPath.parse (TwoWindow.buildCartUrl items')
     = Some (List.map two_window_pair items').
Proof.
  intros Hs Ht. split; [split; reflexivity |]. split; [| split; [| split]].
  - intros Hne. destruct items; [contradiction | reflexivity].
  - intros Hne. destruct items'; [contradiction | reflexivity].
  - rewrite server_cart_url. destruct items as [| i l]; [reflexivity |].
    apply parse_render; [discriminate |].
    apply Forall_map. exact Hs.
  - rewrite two_window_cart_url. destruct items' as [| i l]; [reflexivity |].
    apply parse_render; [discriminate |].
    apply Forall_map. exact Ht.
Qed.

Lemma cart_url_round_trip_witness :
  ServerJs.buildCartUrl Sample.one_item = "/cart/111:1"
  /\ CartPath.parse (TwoWindow.buildCartUrl Sample.one_item')
     = Some [("111", 1)].
Proof.
  destruct (cart_url_round_trip Sample.one_item Sample.one_item')
    as (_ & H1 & _ & _ & H2).
  - repeat constructor.
  - repeat constructor.
  - split; [apply H1; discriminate | exact H2].
Defined.

(** ** Upstream failures *)

(** C7. For a request that names a customer, when the order source answers
    with a non-success status the route replies with that status and the
    error message built from it (401 gives 401); it replies 500 when the
    error carries no status: the fetch was rejected, or the body of a
    success answer was not JSON; and 500 is the fallback only for an error
    without a usable status. *)
Theorem upstream_status_is_preserved (req : ServerJs.Request) :
  names_customer req = true ->
  (forall res,
      ServerJs.ok res = false -> ServerJs.status res <> 0 ->
      ServerJs.forecast req (ServerJs.Responded res)
      = {| ServerJs.code := ServerJs.status res;
           ServerJs.payload :=
             ServerJs.ErrorBody
               ("Shopify API error: " ++ Js.ToString (ServerJs.status res)
                  ++ " " ++ ServerJs.text res)%string |})
  /\ (forall msg,
         ServerJs.code (ServerJs.forecast req (ServerJs.Rejected msg)) = 500)
  /\ (forall res msg,
         ServerJs.ok res = true -> ServerJs.json res = inl msg ->
         ServerJs.code (ServerJs.forecast req (ServerJs.Responded res)) = 500)
  /\ (forall err,
         ServerJs.reply_status err = 500 <->
         ServerJs.Err.status err = None
         \/ ServerJs.Err.status err = Some 0
         \/ ServerJs.Err.status err = Some 500).
Proof.
  intros Hreq. unfold names_customer in Hreq.
  assert (Hgate :
            negb (Js.truthy_str
                    (ServerJs.first_truthy (ServerJs.body_customer_id req)
                       (ServerJs.query_customer_id req)))
            && negb (Js.truthy_str
                       (ServerJs.first_truthy (ServerJs.body_email req)
                          (ServerJs.query_email req))) = false).
  { rewrite <- negb_orb, Hreq. reflexivity. }
  split; [| split; [| split]].
  - intros res Hok Hst. unfold ServerJs.forecast. rewrite Hgate.
    unfold ServerJs.fetchCustomerOrders, ServerJs.shopifyFetch.
    rewrite Hok. simpl. unfold ServerJs.reply_status. simpl.
    destruct (Z.eqb_spec (ServerJs.status res) 0); [contradiction |].
    reflexivity.
  - intros msg. unfold ServerJs.forecast. rewrite Hgate. reflexivity.
  - intros res msg Hok Hjson. unfold ServerJs.forecast. rewrite Hgate.
    unfold ServerJs.fetchCustomerOrders, ServerJs.shopifyFetch.
    rewrite Hok, Hjson. reflexivity.
  - intros [m [s |]]; unfold ServerJs.reply_status; simpl.
    + destruct (Z.eqb_spec s 0) as [-> | Hne].
      * split; [auto | reflexivity].
      * split; [intros ->; auto |].
        intros [H | [H | H]]; congruence.
    + split; [auto | reflexivity].
Qed.

Lemma upstream_status_is_preserved_witness :
  ServerJs.code
    (ServerJs.forecast Sample.request_42
       (ServerJs.Responded Sample.unauthorized)) = 401.
Proof.
  destruct (upstream_status_is_preserved Sample.request_42) as (H & _);
    [reflexivity |].
  rewrite (H Sample.unauthorized); [reflexivity | reflexivity |].
  simpl. lia.
Defined.

(** * Further properties of the code *)

(** ** Sums over line items *)

Lemma find_keyed k lis :
  find (Contribution.keyed k) lis <> None
  <-> exists li, In li lis /\ Contribution.key li = k.
Proof.
  split.
  - destruct (find (Contribution.keyed k) lis) as [li |] eqn:F;
      [intros _ | congruence].
    apply find_some in F. destruct F as [Hin Hk].
    exists li. split; [exact Hin | now apply String.eqb_eq].
  - intros (li & Hin & Hk) F.
    eapply find_none in F; [| exact Hin].
    unfold Contribution.keyed in F. rewrite Hk, String.eqb_refl in F.
    discriminate.
Qed.

Lemma units_of_filter_perm k (f : Shopify.LineItem -> bool) l l' :
  Permutation l l' ->
  Contribution.units_of k (filter f l) = Contribution.units_of k (filter f l').
Proof.
  induction 1 as [| x l l' _ IH | x y l | l l' l'' _ IH1 _ IH2]; simpl.
  - reflexivity.
  - destruct (f x); simpl; lia.
  - destruct (f x), (f y); simpl; lia.
  - congruence.
Qed.

Lemma filter_true {A : Type} (l : list A) : filter (fun _ => true) l = l.
Proof. induction l as [| a l IH]; simpl; congruence. Qed.

Lemma all_items_perm os os' :
  Permutation os os' ->
  Permutation (Contribution.all_items os) (Contribution.all_items os').
Proof.
  unfold Contribution.all_items.
  induction 1 as [| o l l' _ IH | x y l | l l' l'' _ IH1 _ IH2]; simpl.
  - reflexivity.
  - now apply Permutation_app_head.
  - rewrite !app_assoc. apply Permutation_app_tail, Permutation_app_comm.
  - now transitivity (flat_map Shopify.items l').
Qed.

Lemma filter_perm {A : Type} (f : A -> bool) l l' :
  Permutation l l' -> Permutation (filter f l) (filter f l').
Proof.
  induction 1 as [| x l l' _ IH | x y l | l l' l'' _ IH1 _ IH2]; simpl.
  - reflexivity.
  - destruct (f x); [now constructor | exact IH].
  - destruct (f x), (f y); try reflexivity. apply perm_swap.
  - now transitivity (filter f l').
Qed.

Lemma units_of_perm k l l' :
  Permutation l l' -> Contribution.units_of k l = Contribution.units_of k l'.
Proof.
  intros H. rewrite <- (filter_true l), <- (filter_true l').
  now apply units_of_filter_perm.
Qed.

Lemma units_of_nonneg k lis :
  Forall (fun li => 0 <= Shopify.units li) lis ->
  0 <= Contribution.units_of k lis.
Proof.
  induction 1 as [| li lis Hli _ IH]; simpl; [lia |].
  destruct (Contribution.keyed k li); lia.
Qed.

Lemma all_items_app os os' :
  Contribution.all_items (os ++ os')
  = Contribution.all_items os ++ Contribution.all_items os'.
Proof. unfold Contribution.all_items. apply flat_map_app. Qed.

(** ** The aggregator of server.js *)

Lemma server_entry_iff (orders : list Shopify.Order) (k : string) :
  Js.get (ServerJs.aggregateLineItems orders) k <> None <->
  exists li,
    In li (Contribution.all_items orders)
    /\ Contribution.identified li = true
    /\ Contribution.key li = k.
Proof.
  pose proof (server_fold_title (Contribution.all_items orders) [] k) as Ht.
  rewrite <- server_aggregate_fold in Ht.
  unfold server_title_at, Contribution.first_title in Ht. simpl in Ht.
  assert (Hex : (exists li,
                    In li (Contribution.all_items orders)
                    /\ Contribution.identified li = true
                    /\ Contribution.key li = k)
                <-> find (Contribution.keyed k)
                      (filter Contribution.identified
                         (Contribution.all_items orders)) <> None).
  { rewrite find_keyed.
    split; intros (li & H); exists li; rewrite filter_In in *; tauto. }
  rewrite Hex. split.
  - intros Hne F.
    destruct (Js.get (ServerJs.aggregateLineItems orders) k);
      [| congruence].
    rewrite F in Ht. discriminate.
  - intros F Hnone. rewrite Hnone in Ht. simpl in Ht.
    destruct (find (Contribution.keyed k)
                (filter Contribution.identified
                   (Contribution.all_items orders)));
      [discriminate | congruence].
Qed.

Lemma server_total_formula (orders : list Shopify.Order) (k : string) :
  server_total_at (ServerJs.aggregateLineItems orders) k
  = Contribution.units_of k
      (filter Contribution.identified (Contribution.all_items orders)).
Proof. rewrite server_aggregate_fold, server_fold_total. reflexivity. Qed.


Lemma ToString_reads (k : string) (n : Z) :
  k = Js.ToString n ->
  option_map Z.of_int (NilZero.int_of_string k) = Some n.
Proof. intros ->. apply read_ToString. Qed.

Lemma identified_number li :
  Contribution.identified li = true ->
  exists n, n <> 0 /\ Contribution.key li = Js.ToString n.
Proof.
  unfold Contribution.identified, Contribution.key.
  destruct (Shopify.vid li) as [| | n]; simpl; try discriminate.
  intros H. exists n. split; [| reflexivity].
  intros ->. discriminate.
Qed.

(** X2. Every key of the server.js aggregate is the decimal numeral of a
    non-zero identifier: the keys [undefined], [null] and [0] never occur. *)
Theorem server_keys_are_nonzero_numbers (orders : list Shopify.Order) :
  Forall (fun k => exists n, n <> 0 /\ k = Js.ToString n)
    (Js.keys (ServerJs.aggregateLineItems orders))
  /\ ~ In "undefined" (Js.keys (ServerJs.aggregateLineItems orders))
  /\ ~ In "null" (Js.keys (ServerJs.aggregateLineItems orders))
  /\ ~ In "0" (Js.keys (ServerJs.aggregateLineItems orders)).
Proof.
  assert (H : forall k,
             In k (Js.keys (ServerJs.aggregateLineItems orders)) ->
             exists n, n <> 0 /\ k = Js.ToString n).
  { intros k Hk.
    assert (Hget : Js.get (ServerJs.aggregateLineItems orders) k <> None).
    { intros Hnone. apply get_none_keys in Hnone. contradiction. }
    apply server_entry_iff in Hget.
    destruct Hget as (li & _ & Hid & <-). now apply identified_number. }
  split; [now apply Forall_forall |].
  repeat split; intros Hin; destruct (H _ Hin) as (n & Hn & E);
    apply ToString_reads in E; vm_compute in E; congruence.
Qed.

Lemma filter_app_items (f : Shopify.LineItem -> bool) l l' :
  filter f (l ++ l') = filter f l ++ filter f l'.
Proof. apply filter_app. Qed.

Lemma first_title_app k l l' :
  Contribution.first_title k (l ++ l')
  = match Contribution.first_title k l with
    | Some t => Some t
    | None => Contribution.first_title k l'
    end.
Proof.
  unfold Contribution.first_title.
  induction l as [| li l IH]; simpl; [reflexivity |].
  destruct (Contribution.keyed k li); [reflexivity | exact IH].
Qed.

Lemma server_title_formula (orders : list Shopify.Order) (k : string) :
  server_title_at (ServerJs.aggregateLineItems orders) k
  = Contribution.first_title k
      (filter Contribution.identified (Contribution.all_items orders)).
Proof. rewrite server_aggregate_fold, server_fold_title. reflexivity. Qed.

(** X3. Aggregating two batches of orders one after the other in server.js
    adds the totals of the batches key by key, and a title set by the first
    batch is not changed by the second. *)
Theorem server_aggregate_of_batches
  (batch1 batch2 : list Shopify.Order) (k : string) :
  server_total_at (ServerJs.aggregateLineItems (batch1 ++ batch2)) k
  = server_total_at (ServerJs.aggregateLineItems batch1) k
    + server_total_at (ServerJs.aggregateLineItems batch2) k
  /\ server_title_at (ServerJs.aggregateLineItems (batch1 ++ batch2)) k
     = match server_title_at (ServerJs.aggregateLineItems batch1) k with
       | Some t => Some t
       | None => server_title_at (ServerJs.aggregateLineItems batch2) k
       end.
Proof.
  rewrite !server_total_formula, !server_title_formula.
  rewrite all_items_app, filter_app_items, units_of_app, first_title_app.
  split; reflexivity.
Qed.

(** ** The aggregator of the one-window seasonal variant *)

Section SeasonalTotals.
Import Seasonal Contribution.

Lemma seasonal_entry_total map li :
  Agg.totalQty (seasonal_entry map li) = seasonal_total_at map (key li).
Proof.
  unfold seasonal_entry, seasonal_total_at.
  now destruct (Js.get map (key li)).
Qed.


Lemma seasonal_fold_total month lis map k :
  seasonal_total_at (fold_left (add_line_item month) lis map) k
  = seasonal_total_at map k + units_of k lis.
Proof.
  revert map. induction lis as [| li lis IH]; intros map; simpl; [lia |].
  rewrite IH. unfold keyed.
  destruct (String.eqb_spec (key li) k) as [<- | Hne].
  - unfold seasonal_total_at at 1. rewrite seasonal_add_same. simpl.
    rewrite seasonal_entry_total. lia.
  - unfold seasonal_total_at. rewrite seasonal_add_other by congruence. lia.
Qed.


Variable getMonth : string -> option Z.

Lemma seasonal_orders_total os map k :
  seasonal_total_at (fold_left (add_order getMonth) os map) k
  = seasonal_total_at map k + units_of k (all_items os).
Proof.
  revert map. induction os as [| o os IH]; intros map; simpl; [lia |].
  rewrite IH. unfold add_order. rewrite seasonal_fold_total.
  change (all_items (o :: os)) with (Shopify.items o ++ all_items os).
  rewrite units_of_app. lia.
Qed.


(** Writing [old + u] under a key of an object of numbers adds [u] to the
    sum of its values. *)
Lemma sum_values_set (o : Js.Object Z) mk u :
  sum_values (Js.set o mk (Js.or_zero (Js.get o mk) + u)) = sum_values o + u.
Proof.
  induction o as [| [k' v'] o IH]; simpl; [lia |].
  destruct (String.eqb_spec k' mk) as [-> | Hne]; simpl; lia.
Qed.

Lemma set_forall {V : Type} (P : string * V -> Prop) (o : Js.Object V) k v :
  Forall P o -> P (k, v) -> Forall P (Js.set o k v).
Proof.
  intros Ho Hv. induction Ho as [| [k' v'] o Hk Ho IH]; simpl.
  - now constructor.
  - destruct (k' =? k)%string; constructor; assumption.
Qed.

Lemma seasonal_add_adds_up month map li :
  Forall months_add_up map -> Forall months_add_up (add_line_item month map li).
Proof.
  intros H.
  assert (Hentry : months_add_up (key li, seasonal_entry map li)).
  { unfold seasonal_entry. destruct (Js.get map (key li)) as [e |] eqn:E.
    - apply get_some_in in E. rewrite Forall_forall in H. now apply H in E.
    - reflexivity. }
  unfold months_add_up in Hentry. simpl in Hentry.
  unfold add_line_item. fold (key li).
  destruct (Js.get map (key li)) as [e |] eqn:E.
  - rewrite E. apply set_forall; [exact H |].
    unfold months_add_up. simpl. rewrite sum_values_set.
    unfold seasonal_entry in Hentry. rewrite E in Hentry. lia.
  - rewrite get_set_same. apply set_forall.
    + apply set_forall; [exact H | reflexivity].
    + unfold months_add_up. simpl. lia.
Qed.

Lemma seasonal_aggregate_adds_up orders :
  Forall months_add_up (aggregateLineItemsWithSeasonality getMonth orders).
Proof.
  unfold aggregateLineItemsWithSeasonality.
  assert (H : Forall months_add_up (@nil (string * Agg.t))) by constructor.
  revert H. generalize (@nil (string * Agg.t)).
  induction orders as [| o os IH]; intros map H; simpl; [exact H |].
  apply IH. unfold add_order.
  generalize (getMonth (Shopify.created_at o)). intros month.
  revert map H. induction (Shopify.items o) as [| li lis IHl]; intros map H;
    simpl; [exact H |].
  apply IHl. now apply seasonal_add_adds_up.
Qed.
End SeasonalTotals.


(** X5. In every entry of the one-window seasonal aggregate the monthly
    quantities add up to the entry's total. *)
Theorem seasonal_months_add_up_to_total
  (getMonth : string -> option Z) (orders : list Shopify.Order) :
  Forall
    (fun e =>
       sum_values (Seasonal.Agg.monthlyQty (snd e))
       = Seasonal.Agg.totalQty (snd e))
    (Seasonal.aggregateLineItemsWithSeasonality getMonth orders).
Proof. apply seasonal_aggregate_adds_up. Qed.

(** ** All three aggregators *)

Lemma two_window_total_formula getMonth currentMonth recent seasonal k :
  total_at
    (TwoWindow.aggregateLineItemsWithSeasonality getMonth currentMonth
       recent seasonal) k
  = Contribution.units_of k (Contribution.all_items recent)
    + Contribution.units_of k
        (Contribution.all_items
           (filter (Contribution.in_month getMonth currentMonth) seasonal)).
Proof.
  rewrite two_window_aggregate_fold, two_window_fold_total, units_of_app.
  reflexivity.
Qed.

Lemma seasonal_total_formula getMonth orders k :
  seasonal_total_at
    (Seasonal.aggregateLineItemsWithSeasonality getMonth orders) k
  = Contribution.units_of k (Contribution.all_items orders).
Proof.
  unfold Seasonal.aggregateLineItemsWithSeasonality.
  now rewrite seasonal_orders_total.
Qed.

(** X6. The totals do not depend on the order in which the orders arrive:
    rearranging the orders of a window leaves the total under every key
    unchanged, in all three revisions. *)
Theorem totals_do_not_depend_on_order
  (getMonth : string -> option Z) (currentMonth : Z)
  (orders orders' seasonal seasonal' : list Shopify.Order) (k : string) :
  Permutation orders orders' ->
  Permutation seasonal seasonal' ->
  server_total_at (ServerJs.aggregateLineItems orders) k
  = server_total_at (ServerJs.aggregateLineItems orders') k
  /\ seasonal_total_at
       (Seasonal.aggregateLineItemsWithSeasonality getMonth orders) k
     = seasonal_total_at
         (Seasonal.aggregateLineItemsWithSeasonality getMonth orders') k
  /\ total_at
       (TwoWindow.aggregateLineItemsWithSeasonality getMonth currentMonth
          orders seasonal) k
     = total_at
         (TwoWindow.aggregateLineItemsWithSeasonality getMonth currentMonth
            orders' seasonal') k.
Proof.
  intros Ho Hs.
  pose proof (all_items_perm _ _ Ho) as Hitems.
  pose proof (all_items_perm _ _
                (filter_perm (Contribution.in_month getMonth currentMonth)
                   _ _ Hs)) as Hseason.
  split; [| split].
  - rewrite !server_total_formula. now apply units_of_filter_perm.
  - rewrite !seasonal_total_formula. now apply units_of_perm.
  - rewrite !two_window_total_formula.
    rewrite (units_of_perm k _ _ Hitems), (units_of_perm k _ _ Hseason).
    reflexivity.
Qed.

Lemma totals_do_not_depend_on_order_witness :
  server_total_at
    (ServerJs.aggregateLineItems [Sample.may_order; Sample.january_order])
    "41000000000001"
  = server_total_at
      (ServerJs.aggregateLineItems [Sample.january_order; Sample.may_order])
      "41000000000001".
Proof.
  destruct (totals_do_not_depend_on_order Sample.utcMonth 4
              [Sample.may_order; Sample.january_order]
              [Sample.january_order; Sample.may_order]
              [] [] "41000000000001") as (H & _).
  - apply perm_swap.
  - apply perm_nil.
  - exact H.
Defined.

Lemma in_all_items_filter (g : Shopify.Order -> bool) os li :
  In li (Contribution.all_items (filter g os)) ->
  In li (Contribution.all_items os).
Proof.
  unfold Contribution.all_items. rewrite !in_flat_map.
  intros (o & Ho & Hli). exists o. apply filter_In in Ho. tauto.
Qed.

Lemma forall_filter {A : Type} (P : A -> Prop) (f : A -> bool) l :
  Forall P l -> Forall P (filter f l).
Proof.
  rewrite !Forall_forall. intros H x Hx. apply filter_In in Hx. now apply H.
Qed.

(** X7. When no line item has a negative quantity, no running total is
    negative, in all three revisions. *)
Theorem totals_are_not_negative
  (getMonth : string -> option Z) (currentMonth : Z)
  (orders seasonal : list Shopify.Order) (k : string) :
  Forall (fun li => 0 <= Shopify.units li) (Contribution.all_items orders) ->
  Forall (fun li => 0 <= Shopify.units li) (Contribution.all_items seasonal) ->
  0 <= server_total_at (ServerJs.aggregateLineItems orders) k
  /\ 0 <= seasonal_total_at
            (Seasonal.aggregateLineItemsWithSeasonality getMonth orders) k
  /\ 0 <= total_at
            (TwoWindow.aggregateLineItemsWithSeasonality getMonth
               currentMonth orders seasonal) k.
Proof.
  intros Ho Hs. split; [| split].
  - rewrite server_total_formula. now apply units_of_nonneg, forall_filter.
  - rewrite seasonal_total_formula. now apply units_of_nonneg.
  - rewrite two_window_total_formula.
    pose proof (units_of_nonneg k _ Ho).
    assert (0 <= Contribution.units_of k
                   (Contribution.all_items
                      (filter (Contribution.in_month getMonth currentMonth)
                         seasonal))); [| lia].
    apply units_of_nonneg. rewrite Forall_forall in *.
    intros li Hli. apply Hs. eapply in_all_items_filter. exact Hli.
Qed.

Lemma totals_are_not_negative_witness :
  0 <= total_at
         (TwoWindow.aggregateLineItemsWithSeasonality Sample.utcMonth 4
            [Sample.may_order] [Sample.may_order; Sample.january_order])
         "41000000000001".
Proof.
  destruct (totals_are_not_negative Sample.utcMonth 4
              [Sample.may_order] [Sample.may_order; Sample.january_order]
              "41000000000001") as (_ & _ & H).
  - repeat constructor; vm_compute; discriminate.
  - repeat constructor; vm_compute; discriminate.
  - exact H.
Defined.

(** X8. The one-window seasonal variant and the two-window variant do not
    skip a line item with neither identifier: whatever the map holds, it is
    filed under the key [undefined] and its quantity is added to that
    entry's total. *)
Theorem no_line_item_is_skipped
  (month : option Z) (map : Js.Object Seasonal.Agg.t)
  (map' : Js.Object TwoWindow.Agg.t) (li : Shopify.LineItem) :
  Shopify.vid li = Js.Undefined ->
  seasonal_total_at (Seasonal.add_line_item month map li) "undefined"
  = seasonal_total_at map "undefined" + Shopify.units li
  /\ total_at (TwoWindow.add_line_item map' li) "undefined"
     = total_at map' "undefined" + Shopify.units li
  /\ Js.get (Seasonal.add_line_item month map li) "undefined" <> None
  /\ Js.get (TwoWindow.add_line_item map' li) "undefined" <> None.
Proof.
  intros H.
  assert (K : Contribution.key li = "undefined")
    by (unfold Contribution.key; now rewrite H).
  rewrite <- K. repeat split.
  - unfold seasonal_total_at at 1. rewrite seasonal_add_same. simpl.
    now rewrite seasonal_entry_total.
  - unfold total_at at 1. now rewrite two_window_add_same.
  - rewrite seasonal_add_same. discriminate.
  - rewrite two_window_add_same. discriminate.
Qed.

Lemma no_line_item_is_skipped_witness :
  total_at
    (TwoWindow.add_line_item []
       (Sample.line Js.Undefined (Some "Gift wrap") (Some 2))) "undefined"
  = 0 + 2.
Proof.
  destruct (no_line_item_is_skipped None [] []
              (Sample.line Js.Undefined (Some "Gift wrap") (Some 2)))
    as (_ & H & _); [reflexivity |].
  exact H.
Defined.

(** ** Ranking and truncation *)

Lemma strongly_sorted_app_inv {A : Type} (R : A -> A -> Prop) l1 l2 :
  StronglySorted R (l1 ++ l2) ->
  forall x y, In x l1 -> In y l2 -> R x y.
Proof.
  induction l1 as [| a l1 IH]; simpl; [tauto |].
  intros H x y [<- | Hx] Hy.
  - apply StronglySorted_inv in H. destruct H as [_ H].
    rewrite Forall_forall in H. apply H, in_or_app. now right.
  - apply StronglySorted_inv in H. destruct H as [H _]. now apply (IH H x y).
Qed.

Lemma strongly_sorted_weaken {A : Type} (R R' : A -> A -> Prop) l :
  (forall a b, In a l -> In b l -> R a b -> R' a b) ->
  StronglySorted R l -> StronglySorted R' l.
Proof.
  intros Himp H. induction H as [| a l Hl IH Ha]; constructor.
  - apply IH. intros x y Hx Hy. apply Himp; now right.
  - rewrite Forall_forall in *. intros b Hb.
    apply Himp; [now left | now right | now apply Ha].
Qed.

Lemma strongly_sorted_map {A B : Type} (f : A -> B)
  (R : B -> B -> Prop) l :
  StronglySorted (fun a b => R (f a) (f b)) l -> StronglySorted R (map f l).
Proof.
  induction 1 as [| a l Hl IH Ha]; simpl; constructor; [exact IH |].
  now apply Forall_map.
Qed.

(** Sorting a sequence that is already in descending order changes
    nothing. *)
Lemma sort_sorted {A : Type} (rank : A -> Z) l :
  StronglySorted (descending rank) l ->
  Js.sort (fun a b => rank b - rank a) l = l.
Proof.
  induction 1 as [| x l Hl IH Hx]; simpl; [reflexivity |].
  rewrite IH. destruct l as [| y l']; simpl; [reflexivity |].
  apply Forall_inv in Hx. unfold descending in Hx.
  destruct (Z.leb_spec (rank y - rank x) 0); [reflexivity | lia].
Qed.

(** What [slice(0, end)] drops stands behind what it keeps. *)
Lemma slice0_split {A : Type} (l : list A) end_ :
  exists rest, l = Js.slice0 l end_ ++ rest.
Proof.
  destruct (slice0_firstn l end_) as [n ->].
  exists (skipn n l). symmetry. apply firstn_skipn.
Qed.

Lemma slice0_length_exact {A : Type} (l : list A) end_ :
  Z.of_nat (List.length (Js.slice0 l end_))
  = if end_ <? 0 then Z.max (Z.of_nat (List.length l) + end_) 0
    else Z.min end_ (Z.of_nat (List.length l)).
Proof.
  unfold Js.slice0. rewrite length_firstn.
  destruct (Z.ltb_spec end_ 0); lia.
Qed.

Lemma server_entry_mono months k v k' v' :
  0 < months ->
  ServerJs.Agg.qty v <= ServerJs.Agg.qty v' ->
  ServerJs.Item.qty (ServerJs.forecast_entry months (k, v))
  <= ServerJs.Item.qty (ServerJs.forecast_entry months (k', v')).
Proof.
  intros Hm Hle. simpl.
  pose proof (Math_round_div_mono _ _ _ Hm Hle) as Hr.
  set (r := Js.Math_round (Js.div (ServerJs.Agg.qty v) months)) in *.
  set (r' := Js.Math_round (Js.div (ServerJs.Agg.qty v') months)) in *.
  destruct (Z.ltb_spec 0 (ServerJs.Agg.qty v)) as [Hp | Hn];
    destruct (Z.ltb_spec 0 (ServerJs.Agg.qty v')) as [Hp' | Hn'];
    destruct (Z.ltb_spec r 1); destruct (Z.ltb_spec r' 1); simpl; lia.
Qed.


(** X10. The one-window seasonal variant has no floor of 1: an entry bought
    too rarely for its average to round to 1 (twice the total is below the
    window length) and not bought in the current month is left out of the
    forecast, even when its total is positive. *)
Theorem seasonal_rare_item_is_dropped
  (currentMonth : Z) (map : Js.Object Seasonal.Agg.t) (months : Z)
  (k : string) (data : Seasonal.Agg.t) :
  NoDup (Js.keys map) ->
  Js.get map k = Some data ->
  0 <= 2 * Seasonal.Agg.totalQty data < months ->
  Js.or_zero (Js.get (Seasonal.Agg.monthlyQty data)
                (Js.ToString currentMonth)) = 0 ->
  ~ In k (List.map Seasonal.Item.variant_id
            (Seasonal.buildForecast currentMonth map months)).
Proof.
  intros Hnd Hget Ht Hcm Hin.
  apply in_map_iff in Hin. destruct Hin as (i & <- & Hi).
  destruct (seasonal_item_origin _ _ _ _ Hi) as (data' & Hin' & Hpos & _).
  apply in_get_some in Hin'; [| exact Hnd].
  rewrite Hget in Hin'. injection Hin' as <-.
  unfold Seasonal.predicted in Hpos. rewrite Hcm in Hpos.
  assert (Hm : 0 < months) by lia.
  rewrite div_positive in Hpos by assumption.
  destruct (Z.ltb_spec 0 (Seasonal.Agg.totalQty data)); simpl in Hpos;
    [| lia].
  rewrite Math_round_div in Hpos by assumption.
  rewrite Z.div_small in Hpos by lia. lia.
Qed.

Lemma seasonal_rare_item_is_dropped_witness :
  ~ In "41000000000002"
      (List.map Seasonal.Item.variant_id
         (Seasonal.buildForecast 0
            (Seasonal.aggregateLineItemsWithSeasonality Sample.utcMonth
               [Sample.may_order]) 6)).
Proof.
  apply (seasonal_rare_item_is_dropped 0
           (Seasonal.aggregateLineItemsWithSeasonality Sample.utcMonth
              [Sample.may_order]) 6 "41000000000002"
           {| Seasonal.Agg.title := "Tea"; Seasonal.Agg.totalQty := 2;
              Seasonal.Agg.monthlyQty := [("4", 2)] |}).
  - vm_compute. repeat constructor; simpl; intuition congruence.
  - reflexivity.
  - simpl. lia.
  - reflexivity.
Defined.

Lemma sorted_slice_keeps_highest {A : Type} (rank : A -> Z) (l : list A)
  end_ (x y : A) :
  let sorted := Js.sort (fun a b => rank b - rank a) l in
  In x (Js.slice0 sorted end_) -> In y l -> ~ In y (Js.slice0 sorted end_) ->
  rank y <= rank x.
Proof.
  intros sorted Hx Hy Hout.
  destruct (slice0_split sorted end_) as [rest Hsplit].
  assert (Hy' : In y sorted).
  { eapply Permutation_in; [symmetry; apply sort_perm | exact Hy]. }
  rewrite Hsplit in Hy'. apply in_app_or in Hy'.
  destruct Hy' as [Hy' | Hy']; [contradiction |].
  pose proof (sort_descending rank l) as Hs. fold sorted in Hs.
  rewrite Hsplit in Hs.
  exact (strongly_sorted_app_inv _ _ _ Hs x y Hx Hy').
Qed.

(** X11. Truncation in server.js keeps the highest totals: an entry whose
    key is not in the forecast has a total no higher than that of any item
    in the forecast. *)
Theorem server_top_n_keeps_the_highest
  (map : Js.Object ServerJs.Agg.t) (months topN : Z)
  (k : string) (v : ServerJs.Agg.t) (i : ServerJs.Item.t) :
  In (k, v) map ->
  ~ In k (List.map ServerJs.Item.variant_id
            (ServerJs.buildForecastFromAggregates map months topN)) ->
  In i (ServerJs.buildForecastFromAggregates map months topN) ->
  ServerJs.Agg.qty v <= ServerJs.Item.totalQty i.
Proof.
  intros Hin Hout Hi.
  change (ServerJs.Agg.qty v)
    with (ServerJs.Item.totalQty (ServerJs.forecast_entry months (k, v))).
  apply (sorted_slice_keeps_highest ServerJs.Item.totalQty
           (List.map (ServerJs.forecast_entry months) (Js.entries map)) topN).
  - exact Hi.
  - apply in_map. eapply Permutation_in; [symmetry; apply entries_perm |].
    exact Hin.
  - intros Hj. apply Hout.
    change k
      with (ServerJs.Item.variant_id (ServerJs.forecast_entry months (k, v))).
    now apply in_map.
Qed.

Lemma server_top_n_keeps_the_highest_witness :
  ServerJs.Agg.qty {| ServerJs.Agg.qty := 1; ServerJs.Agg.title := "Soap" |}
  <= ServerJs.Item.totalQty
       {| ServerJs.Item.variant_id := "41000000000002";
          ServerJs.Item.qty := 1; ServerJs.Item.title := "Tea";
          ServerJs.Item.totalQty := 2 |}.
Proof.
  apply (server_top_n_keeps_the_highest
           (ServerJs.aggregateLineItems [Sample.may_order]) 6 1
           "41000000000001"
           {| ServerJs.Agg.qty := 1; ServerJs.Agg.title := "Soap" |}
           {| ServerJs.Item.variant_id := "41000000000002";
              ServerJs.Item.qty := 1; ServerJs.Item.title := "Tea";
              ServerJs.Item.totalQty := 2 |}).
  - vm_compute. auto.
  - vm_compute. intuition congruence.
  - vm_compute. auto.
Defined.

(** X12. Truncation in the two-window variant keeps the highest predicted
    quantities: an entry whose key is not in the forecast has a predicted
    quantity no higher than that of any item in the forecast. *)
Theorem two_window_top_n_keeps_the_highest
  (map : Js.Object TwoWindow.Agg.t) (months topN : Z)
  (k : string) (data : TwoWindow.Agg.t) (i : TwoWindow.Item.t) :
  In (k, data) map ->
  ~ In k (List.map TwoWindow.Item.variant_id
            (TwoWindow.buildForecast map months topN)) ->
  In i (TwoWindow.buildForecast map months topN) ->
  TwoWindow.predicted months data <= TwoWindow.Item.qty i.
Proof.
  intros Hin Hout Hi.
  change (TwoWindow.predicted months data)
    with (TwoWindow.Item.qty (TwoWindow.forecast_item months (k, data))).
  apply (sorted_slice_keeps_highest TwoWindow.Item.qty
           (TwoWindow.forecast_loop map months) topN).
  - exact Hi.
  - rewrite forecast_loop_map. apply in_map.
    eapply Permutation_in; [symmetry; apply entries_perm | exact Hin].
  - intros Hj. apply Hout.
    change k
      with (TwoWindow.Item.variant_id
              (TwoWindow.forecast_item months (k, data))).
    now apply in_map.
Qed.

Lemma two_window_top_n_keeps_the_highest_witness :
  TwoWindow.predicted 6
    {| TwoWindow.Agg.title := "Tea"; TwoWindow.Agg.totalQty := 4 |}
  <= TwoWindow.Item.qty
       {| TwoWindow.Item.variant_id := "41000000000001";
          TwoWindow.Item.qty := 2; TwoWindow.Item.title := "Soap" |}.
Proof.
  apply (two_window_top_n_keeps_the_highest
           (TwoWindow.aggregateLineItemsWithSeasonality Sample.utcMonth 4
              [Sample.may_order; Sample.january_order; Sample.may_order;
               Sample.january_order; Sample.january_order] [])
           6 1 "41000000000002"
           {| TwoWindow.Agg.title := "Tea"; TwoWindow.Agg.totalQty := 4 |}
           {| TwoWindow.Item.variant_id := "41000000000001";
              TwoWindow.Item.qty := 2; TwoWindow.Item.title := "Soap" |}).
  - vm_compute. auto.
  - vm_compute. intuition congruence.
  - vm_compute. auto.
Defined.

Lemma server_forecast_length (map : Js.Object ServerJs.Agg.t) months topN :
  Z.of_nat (List.length (ServerJs.buildForecastFromAggregates map months topN))
  = (if topN <? 0 then Z.max (Z.of_nat (List.length map) + topN) 0
     else Z.min topN (Z.of_nat (List.length map))).
Proof.
  unfold ServerJs.buildForecastFromAggregates.
  rewrite slice0_length_exact, (Permutation_length (sort_perm _ _)).
  rewrite length_map, (Permutation_length (entries_perm map)). reflexivity.
Qed.

Lemma two_window_forecast_length (map : Js.Object TwoWindow.Agg.t)
  months topN :
  Z.of_nat (List.length (TwoWindow.buildForecast map months topN))
  = (if topN <? 0 then Z.max (Z.of_nat (List.length map) + topN) 0
     else Z.min topN (Z.of_nat (List.length map))).
Proof.
  unfold TwoWindow.buildForecast.
  rewrite slice0_length_exact, (Permutation_length (sort_perm _ _)).
  rewrite forecast_loop_map, length_map.
  rewrite (Permutation_length (entries_perm map)). reflexivity.
Qed.

(** X13. The number of items of a forecast is the number of entries cut at
    [topN]; a negative [topN] drops that many entries from the end instead
    (server.js and the two-window variant). *)
Theorem forecast_length
  (m1 : Js.Object ServerJs.Agg.t) (m2 : Js.Object TwoWindow.Agg.t)
  (months topN : Z) :
  Z.of_nat (List.length (ServerJs.buildForecastFromAggregates m1 months topN))
  = (if topN <? 0 then Z.max (Z.of_nat (List.length m1) + topN) 0
     else Z.min topN (Z.of_nat (List.length m1)))
  /\ Z.of_nat (List.length (TwoWindow.buildForecast m2 months topN))
     = (if topN <? 0 then Z.max (Z.of_nat (List.length m2) + topN) 0
        else Z.min topN (Z.of_nat (List.length m2))).
Proof.
  split; [apply server_forecast_length | apply two_window_forecast_length].
Qed.

(** X14. With a positive window length the forecast of server.js is also in
    descending order of predicted quantity: a higher total never gets a
    lower prediction. *)
Theorem server_forecast_descends_in_quantity
  (map : Js.Object ServerJs.Agg.t) (months topN : Z) :
  0 < months ->
  StronglySorted (descending ServerJs.Item.qty)
    (ServerJs.buildForecastFromAggregates map months topN).
Proof.
  intros Hm.
  apply strongly_sorted_weaken with (R := descending ServerJs.Item.totalQty).
  - intros a b Ha Hb Hab.
    destruct (server_item_origin _ _ _ _ Ha) as (va & _ & Ea).
    destruct (server_item_origin _ _ _ _ Hb) as (vb & _ & Eb).
    unfold descending in *. rewrite Ea, Eb in *. simpl in Hab.
    now apply server_entry_mono.
  - apply (sort_slice_descending ServerJs.Item.totalQty).
Qed.

Lemma server_forecast_descends_in_quantity_witness :
  StronglySorted (descending ServerJs.Item.qty)
    (ServerJs.buildForecastFromAggregates
       (ServerJs.aggregateLineItems
          [Sample.may_order; Sample.january_order]) 6 12).
Proof.
  apply server_forecast_descends_in_quantity. lia.
Defined.

(** X15. Ties are broken by the order of [Object.entries]: when the entries
    come enumerated in descending order of total (in particular when all
    totals are equal), the forecast of server.js is the first [topN] of them
    in that order. *)
Theorem server_ties_keep_enumeration_order
  (map : Js.Object ServerJs.Agg.t) (months topN : Z) :
  StronglySorted (descending (fun e => ServerJs.Agg.qty (snd e)))
    (Js.entries map) ->
  ServerJs.buildForecastFromAggregates map months topN
  = Js.slice0 (List.map (ServerJs.forecast_entry months) (Js.entries map))
      topN.
Proof.
  intros H. unfold ServerJs.buildForecastFromAggregates. f_equal.
  apply (sort_sorted ServerJs.Item.totalQty).
  apply strongly_sorted_map.
  eapply strongly_sorted_weaken; [| exact H].
  intros [ka va] [kb vb] _ _ Hab. exact Hab.
Qed.

Lemma server_ties_keep_enumeration_order_witness :
  List.map ServerJs.Item.variant_id
    (ServerJs.buildForecastFromAggregates
       (ServerJs.aggregateLineItems [Sample.even_order]) 6 12)
  = ["41000000000001"; "41000000000002"].
Proof.
  rewrite (server_ties_keep_enumeration_order
             (ServerJs.aggregateLineItems [Sample.even_order]) 6 12).
  - reflexivity.
  - vm_compute. repeat constructor; vm_compute; discriminate.
Defined.

Lemma filter_all {A : Type} (g : A -> bool) l :
  forallb g l = true -> filter g l = l.
Proof.
  induction l as [| a l IH]; simpl; [reflexivity |].
  intros H. apply andb_true_iff in H. destruct H as [-> H].
  now rewrite IH.
Qed.

(** X16. In the two-window variant an order set fetched for both windows is
    counted twice when all its orders fall in the current month: every total
    is twice the sum of the quantities. *)
Theorem same_month_orders_count_twice
  (getMonth : string -> option Z) (currentMonth : Z)
  (orders : list Shopify.Order) (k : string) :
  forallb (Contribution.in_month getMonth currentMonth) orders = true ->
  total_at
    (TwoWindow.aggregateLineItemsWithSeasonality getMonth currentMonth
       orders orders) k
  = 2 * Contribution.units_of k (Contribution.all_items orders).
Proof.
  intros H. rewrite two_window_total_formula, filter_all by assumption. lia.
Qed.

Lemma same_month_orders_count_twice_witness :
  total_at
    (TwoWindow.aggregateLineItemsWithSeasonality Sample.utcMonth 4
       [Sample.may_order] [Sample.may_order]) "41000000000002"
  = 2 * 2.
Proof.
  rewrite (same_month_orders_count_twice Sample.utcMonth 4
             [Sample.may_order] "41000000000002"); reflexivity.
Defined.

(** ** The cart link in the three revisions *)

Lemma server_cart_url_pairs items :
  ServerJs.buildCartUrl items = cart_url_of_pairs (List.map server_pair items).
Proof. rewrite server_cart_url. now destruct items. Qed.

Lemma two_window_cart_url_pairs items :
  TwoWindow.buildCartUrl items
  = cart_url_of_pairs (List.map two_window_pair items).
Proof. rewrite two_window_cart_url. now destruct items. Qed.

Lemma seasonal_cart_url_pairs items :
  Seasonal.buildCartUrl items
  = cart_url_of_pairs (List.map seasonal_pair items).
Proof.
  destruct items as [| i items]; [reflexivity |].
  unfold Seasonal.buildCartUrl, cart_url_of_pairs, CartPath.render.
  simpl List.length. cbv iota beta. rewrite map_map. reflexivity.
Qed.

Lemma cart_url_of_pairs_empty ps : cart_url_of_pairs ps = "/cart" <-> ps = [].
Proof.
  destruct ps as [| p ps]; simpl; split; try reflexivity; discriminate.
Qed.

Lemma parse_cart_url_of_pairs ps :
  Forall (fun p => CartPath.safe (fst p) = true) ps ->
  CartPath.parse (cart_url_of_pairs ps) = Some ps.
Proof.
  intros H. destruct ps as [| p ps]; [reflexivity |].
  apply parse_render; [discriminate | exact H].
Qed.

(** X17. The three revisions build the same link from the same (identifier,
    quantity) pairs, and the link is [/cart] exactly for the empty
    sequence. *)
Theorem cart_urls_agree
  (items1 : list ServerJs.Item.t) (items2 : list Seasonal.Item.t)
  (items3 : list TwoWindow.Item.t) :
  List.map server_pair items1 = List.map seasonal_pair items2 ->
  List.map seasonal_pair items2 = List.map two_window_pair items3 ->
  ServerJs.buildCartUrl items1 = Seasonal.buildCartUrl items2
  /\ Seasonal.buildCartUrl items2 = TwoWindow.buildCartUrl items3
  /\ (ServerJs.buildCartUrl items1 = "/cart" <-> items1 = [])
  /\ (Seasonal.buildCartUrl items2 = "/cart" <-> items2 = [])
  /\ (TwoWindow.buildCartUrl items3 = "/cart" <-> items3 = []).
Proof.
  intros H12 H23.
  rewrite server_cart_url_pairs, seasonal_cart_url_pairs,
    two_window_cart_url_pairs.
  rewrite !cart_url_of_pairs_empty.
  repeat split; try congruence.
  - now intros H; apply map_eq_nil in H.
  - now intros ->.
  - now intros H; apply map_eq_nil in H.
  - now intros ->.
  - now intros H; apply map_eq_nil in H.
  - now intros ->.
Qed.

Lemma cart_urls_agree_witness :
  ServerJs.buildCartUrl Sample.one_item
  = TwoWindow.buildCartUrl Sample.one_item'.
Proof.
  destruct (cart_urls_agree Sample.one_item
              [ {| Seasonal.Item.variant_id := "111"; Seasonal.Item.qty := 1;
                   Seasonal.Item.title := "Soap" |} ]
              Sample.one_item') as (H1 & H2 & _);
    [reflexivity | reflexivity |].
  now rewrite H1.
Defined.

(** X18. Two forecasts of server.js with identifiers that are safe path
    tokens get the same link only when they hold the same (identifier,
    quantity) pairs in the same order. *)
Theorem cart_url_determines_the_pairs (items items' : list ServerJs.Item.t) :
  Forall (fun i => CartPath.safe (ServerJs.Item.variant_id i) = true) items ->
  Forall (fun i => CartPath.safe (ServerJs.Item.variant_id i) = true) items' ->
  ServerJs.buildCartUrl items = ServerJs.buildCartUrl items' ->
  List.map server_pair items = List.map server_pair items'.
Proof.
  intros Hs Hs' E.
  assert (P : CartPath.parse (ServerJs.buildCartUrl items)
              = Some (List.map server_pair items)).
  { rewrite server_cart_url_pairs. apply parse_cart_url_of_pairs.
    now apply Forall_map. }
  assert (P' : CartPath.parse (ServerJs.buildCartUrl items')
               = Some (List.map server_pair items')).
  { rewrite server_cart_url_pairs. apply parse_cart_url_of_pairs.
    now apply Forall_map. }
  rewrite E in P. congruence.
Qed.

Lemma cart_url_determines_the_pairs_witness :
  List.map server_pair Sample.one_item = [("111", 1)].
Proof.
  apply (cart_url_determines_the_pairs Sample.one_item
           [ {| ServerJs.Item.variant_id := "111"; ServerJs.Item.qty := 1;
                ServerJs.Item.title := "Tea"; ServerJs.Item.totalQty := 9 |} ]).
  - repeat constructor.
  - repeat constructor.
  - reflexivity.
Defined.

(** ** The [/forecast] routes *)

Lemma gate_open req :
  names_customer req = true ->
  negb (Js.truthy_str
          (ServerJs.first_truthy (ServerJs.body_customer_id req)
             (ServerJs.query_customer_id req)))
  && negb (Js.truthy_str
             (ServerJs.first_truthy (ServerJs.body_email req)
                (ServerJs.query_email req))) = false.
Proof. unfold names_customer. intros H. now rewrite <- negb_orb, H. Qed.

Lemma length_zero {A : Type} (l : list A) :
  (List.length l =? 0)%nat = true <-> l = [].
Proof. destruct l; simpl; split; try reflexivity; discriminate. Qed.

Lemma server_aggregate_empty_iff orders :
  ServerJs.aggregateLineItems orders = []
  <-> filter Contribution.identified (Contribution.all_items orders) = [].
Proof.
  split.
  - intros E.
    destruct (filter Contribution.identified (Contribution.all_items orders))
      as [| li l] eqn:F; [reflexivity | exfalso].
    assert (Hin : In li (filter Contribution.identified
                           (Contribution.all_items orders)))
      by (rewrite F; now left).
    apply filter_In in Hin. destruct Hin as [Hin Hid].
    assert (Hget : Js.get (ServerJs.aggregateLineItems orders)
                     (Contribution.key li) <> None)
      by (apply server_entry_iff; eauto).
    rewrite E in Hget. now apply Hget.
  - intros F.
    destruct (ServerJs.aggregateLineItems orders) as [| [k v] m] eqn:E;
      [reflexivity | exfalso].
    assert (Hget : Js.get (ServerJs.aggregateLineItems orders) k <> None).
    { rewrite E. simpl. rewrite String.eqb_refl. discriminate. }
    apply server_entry_iff in Hget. destruct Hget as (li & Hin & Hid & _).
    assert (Hf : In li (filter Contribution.identified
                          (Contribution.all_items orders)))
      by (apply filter_In; now split).
    rewrite F in Hf. exact Hf.
Qed.

Lemma server_forecast_empty_iff orders months topN :
  0 < topN ->
  ServerJs.buildForecastFromAggregates
    (ServerJs.aggregateLineItems orders) months topN = []
  <-> filter Contribution.identified (Contribution.all_items orders) = [].
Proof.
  intros Hn. rewrite <- server_aggregate_empty_iff.
  pose proof (server_forecast_length
                (ServerJs.aggregateLineItems orders) months topN) as Hlen.
  destruct (Z.ltb_spec topN 0); [lia |].
  split; intros E.
  - rewrite E in Hlen. simpl in Hlen.
    destruct (ServerJs.aggregateLineItems orders); [reflexivity |].
    simpl List.length in Hlen. lia.
  - rewrite E. unfold ServerJs.buildForecastFromAggregates, Js.slice0.
    simpl. apply firstn_nil.
Qed.

(** X20. When the order source answers with orders, the route of server.js
    replies 200: with the message about missing purchases when there is no
    order, with the message about missing forecastable items when no line
    item has an identifier, and otherwise with a forecast of 1 to 12 items
    together with their link, which reads back as these items. *)
Theorem server_route_on_success
  (req : ServerJs.Request) (res : ServerJs.Response) (data : ServerJs.Data) :
  names_customer req = true ->
  ServerJs.ok res = true ->
  ServerJs.json res = inr data ->
  let orders :=
    match ServerJs.orders data with Some l => l | None => [] end in
  let items :=
    ServerJs.buildForecastFromAggregates
      (ServerJs.aggregateLineItems orders) 6 12 in
  let reply := ServerJs.forecast req (ServerJs.Responded res) in
  ServerJs.code reply = 200
  /\ (orders = [] ->
      ServerJs.payload reply
      = ServerJs.NoForecast "/cart" "No purchases in the last 6 months")
  /\ (orders <> [] ->
      filter Contribution.identified (Contribution.all_items orders) = [] ->
      ServerJs.payload reply
      = ServerJs.NoForecast "/cart" "No forecastable items found")
  /\ (filter Contribution.identified (Contribution.all_items orders) <> [] ->
      ServerJs.payload reply
      = ServerJs.ForecastBody (ServerJs.buildCartUrl items) items
      /\ 1 <= Z.of_nat (List.length items) <= 12
      /\ CartPath.parse (ServerJs.buildCartUrl items)
         = Some (List.map server_pair items)).
Proof.
  intros Hreq Hok Hjson orders items reply.
  assert (E : reply
              = if (List.length orders =? 0)%nat then
                  {| ServerJs.code := 200;
                     ServerJs.payload :=
                       ServerJs.NoForecast "/cart"
                         "No purchases in the last 6 months" |}
                else if (List.length items =? 0)%nat then
                  {| ServerJs.code := 200;
                     ServerJs.payload :=
                       ServerJs.NoForecast "/cart"
                         "No forecastable items found" |}
                else
                  {| ServerJs.code := 200;
                     ServerJs.payload :=
                       ServerJs.ForecastBody (ServerJs.buildCartUrl items)
                         items |}).
  { unfold reply, ServerJs.forecast. rewrite (gate_open _ Hreq).
    unfold ServerJs.fetchCustomerOrders, ServerJs.shopifyFetch.
    rewrite Hok, Hjson. reflexivity. }
  pose proof (server_forecast_empty_iff orders 6 12 ltac:(lia)) as Hempty.
  fold items in Hempty.
  pose proof (length_zero orders) as Ho.
  pose proof (length_zero items) as Hi.
  destruct (List.length orders =? 0)%nat eqn:Lo;
    [| destruct (List.length items =? 0)%nat eqn:Li]; rewrite E.
  - assert (orders = []) as Eo by now apply Ho.
    split; [reflexivity |]. split; [reflexivity |]. split; [tauto |].
    intros Hf. exfalso. apply Hf. rewrite Eo. reflexivity.
  - assert (items = []) as Ei by now apply Hi.
    split; [reflexivity |]. split; [| split].
    + intros Eo. apply Ho in Eo. congruence.
    + reflexivity.
    + intros Hf. exfalso. now apply Hf, Hempty.
  - assert (Hne : items <> []) by (intros Ei; apply Hi in Ei; congruence).
    split; [reflexivity |]. split; [| split].
    + intros Eo. apply Ho in Eo. congruence.
    + intros _ Hf. exfalso. now apply Hne, Hempty.
    + intros _. split; [reflexivity |]. split.
      * pose proof (server_forecast_length
                      (ServerJs.aggregateLineItems orders) 6 12) as Hlen.
        fold items in Hlen. simpl in Hlen.
        destruct items; [congruence |]. simpl List.length in *. lia.
      * apply server_forecast_reads_back.
Qed.

Lemma server_route_on_success_witness :
  ServerJs.code
    (ServerJs.forecast Sample.request_42
       (ServerJs.Responded (Sample.answer [Sample.may_order]))) = 200.
Proof.
  destruct (server_route_on_success Sample.request_42
              (Sample.answer [Sample.may_order])
              {| ServerJs.orders := Some [Sample.may_order] |})
    as (H & _); [reflexivity | reflexivity | reflexivity |].
  exact H.
Defined.

Lemma failed_fetch res :
  ServerJs.ok res = false ->
  ServerJs.shopifyFetch (ServerJs.Responded res)
  = inl {| ServerJs.Err.message :=
             ("Shopify API error: " ++ Js.ToString (ServerJs.status res)
                ++ " " ++ ServerJs.text res)%string;
           ServerJs.Err.status := Some (ServerJs.status res) |}.
Proof. intros H. unfold ServerJs.shopifyFetch. now rewrite H. Qed.

Lemma reply_status_attached msg s :
  s <> 0 ->
  ServerJs.reply_status
    {| ServerJs.Err.message := msg; ServerJs.Err.status := Some s |} = s.
Proof.
  intros H. unfold ServerJs.reply_status. simpl.
  now destruct (Z.eqb_spec s 0).
Qed.

(** X21. In the one-window seasonal and the two-window revisions a
    non-success answer of the order source is passed on with its status.
    With two fetches, the failure of either one decides the reply; when both
    fail, the status is that of the fetch that failed first. *)
Theorem upstream_status_in_the_other_revisions
  (getMonth : string -> option Z) (currentMonth : Z)
  (req : ServerJs.Request) (first : TwoWindow.Settled)
  (res : ServerJs.Response) :
  names_customer req = true ->
  ServerJs.ok res = false ->
  ServerJs.status res <> 0 ->
  Seasonal.code
    (Seasonal.forecast getMonth currentMonth req (ServerJs.Responded res))
  = ServerJs.status res
  /\ (forall other data,
         ServerJs.shopifyFetch other = inr data ->
         TwoWindow.code
           (TwoWindow.forecast getMonth currentMonth req first
              (ServerJs.Responded res) other) = ServerJs.status res
         /\ TwoWindow.code
              (TwoWindow.forecast getMonth currentMonth req first
                 other (ServerJs.Responded res)) = ServerJs.status res)
  /\ (forall res',
         ServerJs.ok res' = false -> ServerJs.status res' <> 0 ->
         TwoWindow.code
           (TwoWindow.forecast getMonth currentMonth req first
              (ServerJs.Responded res) (ServerJs.Responded res'))
         = match first with
           | TwoWindow.RecentFirst => ServerJs.status res
           | TwoWindow.SeasonalFirst => ServerJs.status res'
           end).
Proof.
  intros Hreq Hok Hst. apply gate_open in Hreq.
  pose proof (failed_fetch res Hok) as Hf.
  split; [| split].
  - unfold Seasonal.forecast, Seasonal.fetchCustomerOrders.
    rewrite Hreq, Hf. simpl. now apply reply_status_attached.
  - intros other data Hother.
    unfold TwoWindow.forecast, TwoWindow.fetchCustomerOrders.
    rewrite Hreq, Hf, Hother. simpl.
    split; now apply reply_status_attached.
  - intros res' Hok' Hst'.
    unfold TwoWindow.forecast, TwoWindow.fetchCustomerOrders.
    rewrite Hreq, Hf, (failed_fetch res' Hok').
    destruct first; simpl; now apply reply_status_attached.
Qed.

Lemma upstream_status_in_the_other_revisions_witness :
  TwoWindow.code
    (TwoWindow.forecast Sample.utcMonth 4 Sample.request_42
       TwoWindow.SeasonalFirst
       (ServerJs.Responded (Sample.answer [Sample.may_order]))
       (ServerJs.Responded Sample.unauthorized)) = 401.
Proof.
  destruct (upstream_status_in_the_other_revisions Sample.utcMonth 4
              Sample.request_42 TwoWindow.SeasonalFirst Sample.unauthorized)
    as (_ & H & _); [reflexivity | reflexivity | simpl; lia |].
  destruct (H (ServerJs.Responded (Sample.answer [Sample.may_order]))
              {| ServerJs.orders := Some [Sample.may_order] |})
    as (_ & H'); [reflexivity |].
  exact H'.
Defined.

Lemma two_window_entry_iff getMonth currentMonth recent seasonal k :
  Js.get
    (TwoWindow.aggregateLineItemsWithSeasonality getMonth currentMonth
       recent seasonal) k <> None
  <-> exists li,
        In li (Contribution.all_items recent
                 ++ Contribution.all_items
                      (filter (Contribution.in_month getMonth currentMonth)
                         seasonal))
        /\ Contribution.key li = k.
Proof.
  rewrite <- find_keyed.
  pose proof (two_window_fold_title
                (Contribution.all_items recent
                   ++ Contribution.all_items
                        (filter (Contribution.in_month getMonth currentMonth)
                           seasonal)) [] k) as Ht.
  rewrite <- two_window_aggregate_fold in Ht.
  unfold title_at, Contribution.first_title in Ht. simpl in Ht.
  split.
  - intros Hne F. rewrite F in Ht.
    destruct (Js.get
                (TwoWindow.aggregateLineItemsWithSeasonality getMonth
                   currentMonth recent seasonal) k);
      [discriminate | congruence].
  - intros F Hnone. rewrite Hnone in Ht. simpl in Ht.
    destruct (find (Contribution.keyed k)
                (Contribution.all_items recent
                   ++ Contribution.all_items
                        (filter (Contribution.in_month getMonth currentMonth)
                           seasonal)));
      [discriminate | congruence].
Qed.

Lemma two_window_aggregate_empty_iff getMonth currentMonth recent seasonal :
  TwoWindow.aggregateLineItemsWithSeasonality getMonth currentMonth
    recent seasonal = []
  <-> Contribution.all_items recent
        ++ Contribution.all_items
             (filter (Contribution.in_month getMonth currentMonth) seasonal)
      = [].
Proof.
  split.
  - intros E.
    destruct (Contribution.all_items recent
                ++ Contribution.all_items
                     (filter (Contribution.in_month getMonth currentMonth)
                        seasonal)) as [| li l] eqn:F; [reflexivity | exfalso].
    assert (Hget : Js.get
                     (TwoWindow.aggregateLineItemsWithSeasonality getMonth
                        currentMonth recent seasonal)
                     (Contribution.key li) <> None).
    { apply two_window_entry_iff. exists li. rewrite F.
      split; [now left | reflexivity]. }
    rewrite E in Hget. now apply Hget.
  - intros F. rewrite two_window_aggregate_fold, F. reflexivity.
Qed.

Lemma two_window_forecast_empty_iff
  getMonth currentMonth recent seasonal months topN :
  0 < topN ->
  TwoWindow.buildForecast
    (TwoWindow.aggregateLineItemsWithSeasonality getMonth currentMonth
       recent seasonal) months topN = []
  <-> Contribution.all_items recent
        ++ Contribution.all_items
             (filter (Contribution.in_month getMonth currentMonth) seasonal)
      = [].
Proof.
  intros Hn. rewrite <- two_window_aggregate_empty_iff.
  pose proof (two_window_forecast_length
                (TwoWindow.aggregateLineItemsWithSeasonality getMonth
                   currentMonth recent seasonal) months topN) as Hlen.
  destruct (Z.ltb_spec topN 0); [lia |].
  split; intros E.
  - rewrite E in Hlen. simpl in Hlen.
    destruct (TwoWindow.aggregateLineItemsWithSeasonality getMonth
                currentMonth recent seasonal); [reflexivity |].
    simpl List.length in Hlen. lia.
  - rewrite E. unfold TwoWindow.buildForecast, Js.slice0.
    simpl. apply firstn_nil.
Qed.

(** X22. When both fetches succeed, the route of the two-window revision
    replies 200: with the message about missing purchases when both windows
    are empty, with the message about missing forecastable items when the
    recent orders and the seasonal orders of the current month have no line
    item at all, and otherwise with a forecast of 1 to 20 items together
    with their link, which reads back as these items. *)
Theorem two_window_route_on_success
  (getMonth : string -> option Z) (currentMonth : Z)
  (req : ServerJs.Request) (first : TwoWindow.Settled)
  (upRecent upSeasonal : ServerJs.FetchOutcome)
  (dataRecent dataSeasonal : ServerJs.Data) :
  names_customer req = true ->
  ServerJs.shopifyFetch upRecent = inr dataRecent ->
  ServerJs.shopifyFetch upSeasonal = inr dataSeasonal ->
  let recent := TwoWindow.orders_of dataRecent in
  let seasonal := TwoWindow.orders_of dataSeasonal in
  let counted :=
    Contribution.all_items recent
      ++ Contribution.all_items
           (filter (Contribution.in_month getMonth currentMonth) seasonal) in
  let items :=
    TwoWindow.buildForecast
      (TwoWindow.aggregateLineItemsWithSeasonality getMonth currentMonth
         recent seasonal) 6 TwoWindow.TOP_ITEMS in
  let reply :=
    TwoWindow.forecast getMonth currentMonth req first upRecent upSeasonal in
  TwoWindow.code reply = 200
  /\ (recent = [] -> seasonal = [] ->
      TwoWindow.payload reply
      = TwoWindow.NoForecast "/cart" "No purchases in the last 2 years")
  /\ (recent <> [] \/ seasonal <> [] ->
      counted = [] ->
      TwoWindow.payload reply
      = TwoWindow.NoForecast "/cart" "No forecastable items found")
  /\ (counted <> [] ->
      TwoWindow.payload reply
      = TwoWindow.ForecastBody (TwoWindow.buildCartUrl items) items
      /\ 1 <= Z.of_nat (List.length items) <= 20
      /\ CartPath.parse (TwoWindow.buildCartUrl items)
         = Some (List.map two_window_pair items)).
Proof.
  intros Hreq Hr Hs recent seasonal counted items reply.
  assert (E : reply
              = if (List.length recent =? 0)%nat
                   && (List.length seasonal =? 0)%nat then
                  {| TwoWindow.code := 200;
                     TwoWindow.payload :=
                       TwoWindow.NoForecast "/cart"
                         "No purchases in the last 2 years" |}
                else if (List.length items =? 0)%nat then
                  {| TwoWindow.code := 200;
                     TwoWindow.payload :=
                       TwoWindow.NoForecast "/cart"
                         "No forecastable items found" |}
                else
                  {| TwoWindow.code := 200;
                     TwoWindow.payload :=
                       TwoWindow.ForecastBody (TwoWindow.buildCartUrl items)
                         items |}).
  { unfold reply, TwoWindow.forecast, TwoWindow.fetchCustomerOrders.
    rewrite (gate_open _ Hreq), Hr, Hs. reflexivity. }
  pose proof (two_window_forecast_empty_iff getMonth currentMonth
                recent seasonal 6 TwoWindow.TOP_ITEMS
                ltac:(unfold TwoWindow.TOP_ITEMS; lia)) as Hempty.
  fold items counted in Hempty.
  pose proof (length_zero recent) as Hlr.
  pose proof (length_zero seasonal) as Hls.
  pose proof (length_zero items) as Hi.
  assert (Hboth : (List.length recent =? 0)%nat
                  && (List.length seasonal =? 0)%nat = true
                  <-> recent = [] /\ seasonal = []).
  { rewrite andb_true_iff. tauto. }
  destruct ((List.length recent =? 0)%nat
            && (List.length seasonal =? 0)%nat) eqn:Lb;
    [| destruct (List.length items =? 0)%nat eqn:Li]; rewrite E.
  - assert (recent = [] /\ seasonal = []) as [Er Es] by now apply Hboth.
    split; [reflexivity |]. split; [reflexivity |]. split; [tauto |].
    intros Hc. exfalso. apply Hc. unfold counted. rewrite Er, Es.
    reflexivity.
  - assert (items = []) as Ei by now apply Hi.
    assert (Hnb : ~ (recent = [] /\ seasonal = [])).
    { intros H. apply Hboth in H. congruence. }
    split; [reflexivity |]. split; [| split].
    + intros Er Es. exfalso. now apply Hnb.
    + reflexivity.
    + intros Hc. exfalso. now apply Hc, Hempty.
  - assert (Hne : items <> []) by (intros Ei; apply Hi in Ei; congruence).
    assert (Hnb : ~ (recent = [] /\ seasonal = [])).
    { intros H. apply Hboth in H. congruence. }
    split; [reflexivity |]. split; [| split].
    + intros Er Es. exfalso. now apply Hnb.
    + intros _ Hc. exfalso. now apply Hne, Hempty.
    + intros _. split; [reflexivity |]. split.
      * pose proof (two_window_forecast_length
                      (TwoWindow.aggregateLineItemsWithSeasonality getMonth
                         currentMonth recent seasonal) 6 TwoWindow.TOP_ITEMS)
          as Hlen.
        fold items in Hlen. unfold TwoWindow.TOP_ITEMS in Hlen.
        simpl in Hlen.
        destruct items; [congruence |]. simpl List.length in *. lia.
      * apply two_window_forecast_reads_back.
Qed.

Lemma two_window_route_on_success_witness :
  TwoWindow.code
    (TwoWindow.forecast Sample.utcMonth 4 Sample.request_42
       TwoWindow.RecentFirst
       (ServerJs.Responded (Sample.answer [Sample.may_order]))
       (ServerJs.Responded (Sample.answer [Sample.january_order]))) = 200.
Proof.
  destruct (two_window_route_on_success Sample.utcMonth 4 Sample.request_42
              TwoWindow.RecentFirst
              (ServerJs.Responded (Sample.answer [Sample.may_order]))
              (ServerJs.Responded (Sample.answer [Sample.january_order]))
              {| ServerJs.orders := Some [Sample.may_order] |}
              {| ServerJs.orders := Some [Sample.january_order] |})
    as (H & _); [reflexivity | reflexivity | reflexivity |].
  exact H.
Defined.

Lemma seasonal_add_safe month map li :
  safe_keys map -> safe_keys (Seasonal.add_line_item month map li).
Proof.
  intros H. unfold Seasonal.add_line_item.
  destruct (Js.get map (Js.String_ (Shopify.vid li))) as [e |] eqn:E.
  - rewrite E. now apply set_safe_keys.
  - rewrite get_set_same. now apply set_safe_keys, set_safe_keys.
Qed.

Lemma seasonal_aggregate_safe getMonth orders :
  safe_keys (Seasonal.aggregateLineItemsWithSeasonality getMonth orders).
Proof.
  unfold Seasonal.aggregateLineItemsWithSeasonality.
  assert (H : safe_keys (@nil (string * Seasonal.Agg.t))) by constructor.
  revert H. generalize (@nil (string * Seasonal.Agg.t)).
  induction orders as [| o os IH]; intros map H; simpl; [exact H |].
  apply IH. unfold Seasonal.add_order.
  apply fold_safe_keys; [apply seasonal_add_safe | exact H].
Qed.

Lemma seasonal_forecast_reads_back getMonth currentMonth orders months :
  let items :=
    Seasonal.buildForecast currentMonth
      (Seasonal.aggregateLineItemsWithSeasonality getMonth orders) months in
  CartPath.parse (Seasonal.buildCartUrl items)
  = Some (List.map seasonal_pair items).
Proof.
  intros items. rewrite seasonal_cart_url_pairs.
  apply parse_cart_url_of_pairs.
  apply Forall_map, Forall_forall. intros j Hj. simpl.
  destruct (seasonal_item_origin _ _ _ _ Hj) as (d & Hin & _).
  pose proof (seasonal_aggregate_safe getMonth orders) as Hsafe.
  unfold safe_keys in Hsafe. rewrite Forall_forall in Hsafe.
  apply Hsafe. change (Seasonal.Item.variant_id j)
    with (fst (Seasonal.Item.variant_id j, d)). now apply in_map.
Qed.

(** X23. When the order source answers with orders, the route of the
    one-window seasonal revision always replies 200 with the forecast of
    these orders and its link (the early reply for an empty order list is
    the forecast of no orders: no items and the link [/cart]); the link
    reads back as the items and is [/cart] exactly when no entry has a
    positive predicted quantity. *)
Theorem seasonal_route_on_success
  (getMonth : string -> option Z) (currentMonth : Z)
  (req : ServerJs.Request) (upstream : ServerJs.FetchOutcome)
  (data : ServerJs.Data) :
  names_customer req = true ->
  ServerJs.shopifyFetch upstream = inr data ->
  let orders :=
    match ServerJs.orders data with Some l => l | None => [] end in
  let items :=
    Seasonal.buildForecast currentMonth
      (Seasonal.aggregateLineItemsWithSeasonality getMonth orders) 6 in
  Seasonal.forecast getMonth currentMonth req upstream
  = {| Seasonal.code := 200;
       Seasonal.payload :=
         Seasonal.ForecastBody (Seasonal.buildCartUrl items) items |}
  /\ CartPath.parse (Seasonal.buildCartUrl items)
     = Some (List.map seasonal_pair items)
  /\ (Seasonal.buildCartUrl items = "/cart" <-> items = []).
Proof.
  intros Hreq Hup orders items. split; [| split].
  - unfold Seasonal.forecast, Seasonal.fetchCustomerOrders.
    rewrite (gate_open _ Hreq), Hup. fold orders.
    destruct orders as [| o os] eqn:E; [reflexivity |].
    simpl List.length. cbv iota beta. reflexivity.
  - apply seasonal_forecast_reads_back.
  - rewrite seasonal_cart_url_pairs, cart_url_of_pairs_empty.
    split; [apply map_eq_nil | now intros ->].
Qed.

Lemma seasonal_route_on_success_witness :
  Seasonal.code
    (Seasonal.forecast Sample.utcMonth 4 Sample.request_42
       (ServerJs.Responded (Sample.answer [Sample.may_order]))) = 200.
Proof.
  destruct (seasonal_route_on_success Sample.utcMonth 4 Sample.request_42
              (ServerJs.Responded (Sample.answer [Sample.may_order]))
              {| ServerJs.orders := Some [Sample.may_order] |})
    as (H & _); [reflexivity | reflexivity |].
  now rewrite H.
Defined.

(** ** From orders to forecast items *)


